(** * pdf_extractor.py: extraction of report metadata and tables, and their
      persistence in SQLite.

    A shallow embedding of [src/pdf_extractor.py].  Python strings are lists
    of code points, exceptions are an explicit outcome type, and the SQLite
    store with the transaction of the current connection, the connection
    counter and the observable actions (files opened, INSERT statements
    executed, records logged) are threaded through a small
    state-and-exception monad. *)

From Stdlib Require Import String Ascii List Bool Arith NArith ZArith Lia.
Import ListNotations.

Set Implicit Arguments.

(** ** Python strings *)

Definition char := N.
Definition str := list char.

(** The code points of an ASCII literal of the source. *)
Definition codes (s : string) : str :=
  map N_of_ascii (list_ascii_of_string s).

Definition str_eqb (a b : str) : bool :=
  if list_eq_dec N.eq_dec a b then true else false.

Definition nl : char := 10%N.
Definition sp : char := 32%N.

(** ** The fragment of [re] used by the two compiled patterns *)

Module Re.

(** One instruction of a compiled pattern.  [Bol] is [^] under
    [re.MULTILINE]; [Chr p] is a literal or a one-character class; [Plus p]
    is the greedy [p+]; [GOpen] and [GClose] delimit a capture group. *)
Inductive item : Type :=
| Bol
| Chr (p : char -> bool)
| Plus (p : char -> bool)
| GOpen
| GClose.

Definition lit (c : char) : char -> bool := N.eqb c.
Definition upper (c : char) : bool := (65 <=? c)%N && (c <=? 90)%N.
Definition lower (c : char) : bool := (97 <=? c)%N && (c <=? 122)%N.

(** A literal piece of a pattern. *)
Definition lits (s : string) : list item := map (fun c => Chr (lit c)) (codes s).

(** [cur] is the text consumed so far by the group that is open (most recent
    character first), if one is. *)
Definition push (c : char) (cur : option str) : option str :=
  option_map (cons c) cur.

Definition close (cur : option str) (caps : list str) : list str :=
  match cur with
  | Some g => rev g :: caps
  | None => caps
  end.

(** Greedy repetition with backtracking: consume one more character while
    the class allows it, and fall back to the continuation [k] at the
    longest length from which the rest of the pattern matches. *)
Fixpoint plus_loop (p : char -> bool)
    (k : bool -> option str -> str -> option (list str))
    (cur : option str) (s : str) : option (list str) :=
  match s with
  | [] => None
  | c :: s' =>
      if p c then
        match plus_loop p k (push c cur) s' with
        | Some r => Some r
        | None => k (N.eqb c nl) (push c cur) s'
        end
      else None
  end.

(** Match a pattern at the current position.  [bol] tells whether the
    position is the start of the text or follows a newline; the result is
    the list of captured groups, in pattern order. *)
Fixpoint exec (prog : list item) (caps : list str) (bol : bool)
    (cur : option str) (s : str) : option (list str) :=
  match prog with
  | [] => Some (rev caps)
  | Bol :: q => if bol then exec q caps bol cur s else None
  | Chr p :: q =>
      match s with
      | c :: s' => if p c then exec q caps (N.eqb c nl) (push c cur) s' else None
      | [] => None
      end
  | Plus p :: q => plus_loop p (exec q caps) cur s
  | GOpen :: q => exec q caps bol (Some []) s
  | GClose :: q => exec q (close cur caps) bol None s
  end.

Definition match_at (prog : list item) (bol : bool) (s : str) : option (list str) :=
  exec prog [] bol None s.

(** [Pattern.search]: try every start position from left to right and keep
    the first at which the pattern matches; the result is that position and
    the groups. *)
Fixpoint search_from (prog : list item) (bol : bool) (i : nat) (s : str)
    : option (nat * list str) :=
  match match_at prog bol s with
  | Some g => Some (i, g)
  | None =>
      match s with
      | [] => None
      | c :: s' => search_from prog (N.eqb c nl) (S i) s'
      end
  end.

Definition search (prog : list item) (text : str) : option (nat * list str) :=
  search_from prog true 0 text.

(** The state of the matcher after it has consumed the characters [r]. *)
Definition pushl (r : str) (cur : option str) : option str :=
  fold_left (fun acc c => push c acc) r cur.

Definition bol_after (b : bool) (r : str) : bool :=
  fold_left (fun _ c => N.eqb c nl) r b.

(** Whether position [i] of [text] is a line start. *)
Definition bol_at (text : str) (i : nat) : bool :=
  match i with
  | O => true
  | S j => match nth_error text j with
           | Some c => N.eqb c nl
           | None => false
           end
  end.

(** The start flag seen by the search [k] characters further on. *)
Definition bol_rel (b : bool) (s : str) (k : nat) : bool :=
  match k with
  | O => b
  | S j => match nth_error s j with
           | Some c => N.eqb c nl
           | None => false
           end
  end.

End Re.

(** ** Exceptions and outcomes *)

(** The exception classes the program can meet.  All of them derive from
    [Exception]; only [sqlite3_Error] is an instance of [sqlite3.Error]. *)
Inductive exn : Type :=
| sqlite3_Error
| IndexError
| TypeError
| ValueError
| RuntimeError
| UnicodeEncodeError
| OverflowError.

Definition is_sqlite3_Error (e : exn) : bool :=
  match e with
  | sqlite3_Error => true
  | _ => false
  end.

Definition is_Exception (e : exn) : bool := true.

Inductive outcome (A : Type) : Type :=
| Return (a : A)
| Raise (e : exn).

Arguments Return {A} a.
Arguments Raise {A} e.

(** ** The page source (pymupdf) *)

(** A cell is a string, or [None] where the detector found none. *)
Definition Cell := option str.
Definition Row := list Cell.

Definition cell_eqb (a b : Cell) : bool :=
  match a, b with
  | Some x, Some y => str_eqb x y
  | None, None => true
  | _, _ => false
  end.

(** [table.extract()] yields the row grid or raises. *)
Record Table : Type := { extract : outcome (list Row) }.

(** The object returned by [page.find_tables()]. *)
Record TableFinder : Type := { tables : list Table }.

Record Page : Type := {
  get_text : outcome str;
  find_tables : outcome TableFinder
}.

Definition Document := list Page.
Definition Path := string.

(** ** Records *)

Record Metadata : Type := {
  firstname : str;
  surname : str;
  year : Z;
  semester : Z;
  report : Z
}.

(** The dictionary [{**extracted_metadata, "all_rows": extracted_tabledata}]:
    the five metadata keys, read through the coercion, and [all_rows]. *)
Record ExtractionResult : Type := {
  metadata :> Metadata;
  all_rows : list Row
}.

(** The eleven values bound by the INSERT statement, in column order. *)
Record ReportRow : Type := {
  row_metadata : Metadata;
  subject : Cell;
  evidence_of_learning : Cell;
  personal_learning : Cell;
  working_with_others : Cell;
  orderly_behaviour : Cell;
  learning_outside_the_classroom : Cell
}.

(** ** The world: store, connection counter and observable actions *)

Inductive event : Type :=
| Opened (f : Path)                  (* pymupdf.open(f) was called *)
| Executed (v : ReportRow)           (* cur.execute(INSERT ..., v) was called *)
| Logged (msg : string) (e : exn).   (* logging.exception(msg, e) *)

(** [db] is the content of table [mesc_reports], in insertion order (the
    surrogate key of a row is its position), or [None] when the table does
    not exist.  [txn] is, when the current connection has a transaction
    open, the content of the table at the start of that transaction.
    [connects] counts the calls of [sqlite3.connect]. *)
Record world : Type := {
  db : option (list ReportRow);
  txn : option (option (list ReportRow));
  connects : nat;
  trace : list event
}.

Definition set_db (t : option (list ReportRow)) (w : world) : world :=
  {| db := t; txn := txn w; connects := connects w; trace := trace w |}.

Definition set_txn (x : option (option (list ReportRow))) (w : world) : world :=
  {| db := db w; txn := x; connects := connects w; trace := trace w |}.

Definition set_connects (n : nat) (w : world) : world :=
  {| db := db w; txn := txn w; connects := n; trace := trace w |}.

Definition add_event (ev : event) (w : world) : world :=
  {| db := db w; txn := txn w; connects := connects w; trace := trace w ++ [ev] |}.

(** The implicit BEGIN that precedes a data-modifying statement when no
    transaction is open. *)
Definition begin_transaction (w : world) : world :=
  match txn w with
  | None => set_txn (Some (db w)) w
  | Some _ => w
  end.

(** [conn.rollback()] *)
Definition rollback (w : world) : world :=
  match txn w with
  | Some t0 => set_txn None (set_db t0 w)
  | None => w
  end.

(** *** Binding the parameters of a statement

    [sqlite3] encodes a string parameter as UTF-8, which fails with
    [UnicodeEncodeError] on a lone surrogate, and converts an integer
    parameter to a 64-bit integer, which fails with [OverflowError] outside
    that range.  [None] is bound as NULL.  The parameters are bound in
    order and the first failure is raised. *)

Definition surrogate (c : char) : bool := (55296 <=? c)%N && (c <=? 57343)%N.

Definition bind_text (s : str) : option exn :=
  if existsb surrogate s then Some UnicodeEncodeError else None.

Definition bind_cell (c : Cell) : option exn :=
  match c with
  | Some s => bind_text s
  | None => None
  end.

Definition bind_int (z : Z) : option exn :=
  if ((- 2 ^ 63 <=? z) && (z <? 2 ^ 63))%Z then None else Some OverflowError.

Fixpoint first_error (l : list (option exn)) : option exn :=
  match l with
  | [] => None
  | Some e :: _ => Some e
  | None :: rest => first_error rest
  end.

Definition bind_parameters (v : ReportRow) : option exn :=
  first_error
    [bind_text (firstname (row_metadata v));
     bind_text (surname (row_metadata v));
     bind_int (year (row_metadata v));
     bind_int (semester (row_metadata v));
     bind_int (report (row_metadata v));
     bind_cell (subject v);
     bind_cell (evidence_of_learning v);
     bind_cell (personal_learning v);
     bind_cell (working_with_others v);
     bind_cell (orderly_behaviour v);
     bind_cell (learning_outside_the_classroom v)].

(** What can go wrong in the schema script once the connection is open:
    nothing, the DROP statement, or the CREATE statement. *)
Inductive script_fault : Type :=
| ScriptOk
| DropFails
| CreateFails.

(** ** The monad of the program *)

Definition M (A : Type) : Type := world -> outcome A * world.

Definition ret {A : Type} (a : A) : M A := fun w => (Return a, w).

Definition raise {A : Type} (e : exn) : M A := fun w => (Raise e, w).

Definition bind {A B : Type} (m : M A) (k : A -> M B) : M B :=
  fun w =>
    match m w with
    | (Return a, w') => k a w'
    | (Raise e, w') => (Raise e, w')
    end.

Notation "x <- m ;; k" := (bind m (fun x => k))
  (at level 61, m at next level, right associativity).
Notation "m ;;; k" := (bind m (fun _ => k))
  (at level 61, right associativity).

(** The result of a call into a library object. *)
Definition call {A : Type} (o : outcome A) : M A := fun w => (o, w).

(** [try: m except C as e: h e], where [catches] decides [isinstance(e, C)]. *)
Definition try_except {A : Type} (m : M A) (catches : exn -> bool)
    (h : exn -> M A) : M A :=
  fun w =>
    match m w with
    | (Return a, w') => (Return a, w')
    | (Raise e, w') => if catches e then h e w' else (Raise e, w')
    end.

Definition emit (ev : event) : M unit := fun w => (Return tt, add_event ev w).

Definition logging_exception (msg : string) (e : exn) : M unit :=
  emit (Logged msg e).

(** [logging.exception()] without its required [msg] argument: the call
    itself raises [TypeError] and nothing is logged. *)
Definition logging_exception_no_msg : M unit := raise TypeError.

(** [for x in xs: body x], for a body without [return]. *)
Fixpoint for_each {X : Type} (xs : list X) (body : X -> M unit) : M unit :=
  match xs with
  | [] => ret tt
  | x :: rest => body x ;;; for_each rest body
  end.

(** [row[i]] *)
Definition getitem {A : Type} (l : list A) (i : nat) : outcome A :=
  match nth_error l i with
  | Some a => Return a
  | None => Raise IndexError
  end.

(** The files opened and the INSERT statements executed, read off a trace. *)
Definition opened (tr : list event) : list Path :=
  flat_map (fun ev => match ev with Opened f => [f] | _ => [] end) tr.

Definition executed (tr : list event) : list ReportRow :=
  flat_map (fun ev => match ev with Executed v => [v] | _ => [] end) tr.

(** [w1] differs from [w] by log records only. *)
Definition quiet (w w1 : world) : Prop :=
  db w1 = db w /\ connects w1 = connects w /\
  opened (trace w1) = opened (trace w) /\
  executed (trace w1) = executed (trace w).

Definition run {A : Type} (m : M A) (w : world) : outcome A * world := m w.

Section Program.

(** The decimal value of a code point of Unicode category Nd, which is both
    what [\d] accepts and what [int] reads. *)
Variable decimal_value : char -> option Z.

(** [pymupdf.open]: the document stored at a path, or the error of opening
    it. *)
Variable pymupdf_open : Path -> outcome Document.

(** Whether the [n]-th call of [sqlite3.connect] of the run fails. *)
Variable connect_fails : nat -> bool.

(** The fault of the schema script run on the [n]-th connection. *)
Variable script_fault_at : nat -> script_fault.

(** Whether the COMMIT of the transaction of the [n]-th connection fails. *)
Variable commit_fails : nat -> bool.

(** Whether the store accepts the INSERT of a row when the table exists and
    the parameters are bound. *)
Variable accepts : ReportRow -> bool.

(** *** extract_metadata *)

Definition digit (c : char) : bool :=
  match decimal_value c with
  | Some _ => true
  | None => false
  end.

(** [^([A-Z][a-z]+) ([A-Z]+)] *)
Definition nm_search : list Re.item :=
  [Re.Bol; Re.GOpen; Re.Chr Re.upper; Re.Plus Re.lower; Re.GClose;
   Re.Chr (Re.lit sp); Re.GOpen; Re.Plus Re.upper; Re.GClose].

(** [^Semester (\d), (\d{4}) - Progress Report (\d)] *)
Definition se_search : list Re.item :=
  Re.Bol :: Re.lits "Semester "
    ++ [Re.GOpen; Re.Chr digit; Re.GClose]
    ++ Re.lits ", "
    ++ [Re.GOpen; Re.Chr digit; Re.Chr digit; Re.Chr digit; Re.Chr digit;
        Re.GClose]
    ++ Re.lits " - Progress Report "
    ++ [Re.GOpen; Re.Chr digit; Re.GClose].

(** [m.group(n)], for [n >= 1]. *)
Definition group (groups : list str) (n : nat) : outcome str :=
  getitem groups (n - 1).

Fixpoint digits_value (acc : Z) (s : str) : option Z :=
  match s with
  | [] => Some acc
  | c :: s' =>
      match decimal_value c with
      | Some d => digits_value (10 * acc + d) s'
      | None => None
      end
  end.

(** [int(s)] on a string: the value of a non-empty run of decimal digits;
    any other string is taken to raise [ValueError]. *)
Definition py_int (s : str) : outcome Z :=
  match s with
  | [] => Raise ValueError
  | _ => match digits_value 0 s with
         | Some z => Return z
         | None => Raise ValueError
         end
  end.

(** [map(int, groups)], consumed from left to right. *)
Fixpoint map_int (groups : list str) : outcome (list Z) :=
  match groups with
  | [] => Return []
  | g :: rest =>
      match py_int g with
      | Raise e => Raise e
      | Return z =>
          match map_int rest with
          | Raise e => Raise e
          | Return zs => Return (z :: zs)
          end
      end
  end.

(** The body of the page loop; [None] stands for [continue]. *)
Definition metadata_of_page (page : Page) : M (option Metadata) :=
  page_text <- call (get_text page) ;;
  match Re.search nm_search page_text with
  | None => ret None
  | Some (_, name_match) =>
      match Re.search se_search page_text with
      | None => ret None
      | Some (_, semester_match) =>
          fn <- call (group name_match 1) ;;
          sn <- call (group name_match 2) ;;
          ints <- call (map_int semester_match) ;;
          match ints with
          | [se; ye; re] =>
              ret (Some {| firstname := fn; surname := sn; year := ye;
                           semester := se; report := re |})
          | _ => raise ValueError
          end
      end
  end.

Fixpoint extract_metadata (document : Document) : M (option Metadata) :=
  match document with
  | [] => ret None
  | page :: rest =>
      r <- try_except (metadata_of_page page) is_Exception
             (fun e => logging_exception " extract_metadata() error: %s" e ;;;
                       ret None) ;;
      match r with
      | Some md => ret (Some md)
      | None => extract_metadata rest
      end
  end.

(** *** extract_tabledata *)

Definition marker : Cell := Some (codes "Areas Of Assessment").

(** ["Areas Of Assessment" in row]: membership in the list of cells. *)
Definition contains (row : Row) (x : Cell) : bool := existsb (cell_eqb x) row.

(** [table_rows and "Areas Of Assessment" in table_rows[0]] *)
Definition qualifies (table_rows : list Row) : bool :=
  match table_rows with
  | [] => false
  | row0 :: _ => contains row0 marker
  end.

(** The loop over the tables of one page; [Some] stands for [return]. *)
Fixpoint scan_tables (ts : list Table) : M (option (list Row)) :=
  match ts with
  | [] => ret None
  | table :: rest =>
      table_rows <- call (extract table) ;;
      if qualifies table_rows then ret (Some (skipn 2 table_rows))
      else scan_tables rest
  end.

Definition tabledata_of_page (page : Page) : M (option (list Row)) :=
  table_search <- call (find_tables page) ;;
  match tables table_search with
  | [] => ret None
  | ts => scan_tables ts
  end.

Fixpoint extract_tabledata (document : Document) : M (option (list Row)) :=
  match document with
  | [] => ret None
  | page :: rest =>
      r <- try_except (tabledata_of_page page) is_Exception
             (fun e => logging_exception " extract_tabledata() error: %s" e ;;;
                       ret None) ;;
      match r with
      | Some rows => ret (Some rows)
      | None => extract_tabledata rest
      end
  end.

(** *** extract_data *)

Definition extract_data (current_file : Path) : M (option ExtractionResult) :=
  try_except
    (emit (Opened current_file) ;;;
     current_document <- call (pymupdf_open current_file) ;;
     extracted_metadata <- extract_metadata current_document ;;
     match extracted_metadata with
     | None => ret None
     | Some md =>
         extracted_tabledata <- extract_tabledata current_document ;;
         match extracted_tabledata with
         | None => ret None
         | Some rows => ret (Some {| metadata := md; all_rows := rows |})
         end
     end)
    is_Exception
    (fun e => logging_exception_no_msg ;;; ret None).

(** *** write_sql *)

(** [sqlite3.connect(SQL_PATH)]: a new connection has no transaction
    open. *)
Definition sqlite3_connect : M unit :=
  fun w =>
    let w' := set_connects (S (connects w)) w in
    if connect_fails (connects w) then (Raise sqlite3_Error, w')
    else (Return tt, set_txn None w').

(** Leaving the [with] block of connection [n]: when the body ended
    normally the open transaction, if any, is committed, and rolled back if
    the COMMIT fails; when an exception leaves the body the open
    transaction is rolled back and the exception goes on. *)
Definition connection_exit {A : Type} (n : nat) (r : outcome A * world)
    : outcome A * world :=
  match r with
  | (Return a, w') =>
      match txn w' with
      | None => (Return a, w')
      | Some _ =>
          if commit_fails n then (Raise sqlite3_Error, rollback w')
          else (Return a, set_txn None w')
      end
  | (Raise e, w') => (Raise e, rollback w')
  end.

(** [with sqlite3.connect(SQL_PATH) as conn: body] *)
Definition with_connection {A : Type} (body : M A) : M A :=
  fun w =>
    match sqlite3_connect w with
    | (Return _, w1) => connection_exit (connects w) (body w1)
    | (Raise e, w1) => (Raise e, w1)
    end.

(** The parameter tuple of the INSERT; [row[0]] to [row[5]] are evaluated in
    order and the first missing index raises [IndexError]. *)
Definition insert_values (extracted_data : ExtractionResult) (row : Row)
    : outcome ReportRow :=
  match getitem row 0, getitem row 1, getitem row 2,
        getitem row 3, getitem row 4, getitem row 5 with
  | Return c0, Return c1, Return c2, Return c3, Return c4, Return c5 =>
      Return {| row_metadata := extracted_data;
                subject := c0;
                evidence_of_learning := c1;
                personal_learning := c2;
                working_with_others := c3;
                orderly_behaviour := c4;
                learning_outside_the_classroom := c5 |}
  | _, _, _, _, _, _ => Raise IndexError
  end.

(** [cur.execute("INSERT INTO mesc_reports (...) VALUES (...)", v)]: the
    statement is prepared, which fails when the table does not exist; a
    transaction is begun if none is open; the parameters are bound; the
    statement is run. *)
Definition cur_execute_insert (v : ReportRow) : M unit :=
  emit (Executed v) ;;;
  fun w =>
    match db w with
    | None => (Raise sqlite3_Error, w)
    | Some t =>
        let w1 := begin_transaction w in
        match bind_parameters v with
        | Some e => (Raise e, w1)
        | None =>
            if accepts v then (Return tt, set_db (Some (t ++ [v])) w1)
            else (Raise sqlite3_Error, w1)
        end
    end.

(** The body of the row loop. *)
Definition write_row (extracted_data : ExtractionResult) (row : Row) : M unit :=
  try_except
    (v <- call (insert_values extracted_data row) ;;
     cur_execute_insert v)
    is_sqlite3_Error
    (fun e => logging_exception " write_sql() row error: %s" e).

Definition write_sql (extracted_data : ExtractionResult) : M unit :=
  try_except
    (with_connection
       (for_each (all_rows extracted_data) (write_row extracted_data)))
    is_sqlite3_Error
    (fun e => logging_exception " write_sql() config error: %s" e).

(** *** setup_sql *)

(** [cur.executescript("DROP TABLE IF EXISTS mesc_reports; CREATE TABLE
    mesc_reports (...)")]: a pending transaction is committed first, then
    the two statements run one after the other outside any transaction, so
    that a DROP that succeeded stays when the CREATE fails. *)
Definition cur_executescript_schema : M unit :=
  fun w =>
    let w0 := set_txn None w in
    match script_fault_at (pred (connects w)) with
    | DropFails => (Raise sqlite3_Error, w0)
    | CreateFails => (Raise sqlite3_Error, set_db None w0)
    | ScriptOk => (Return tt, set_db (Some []) w0)
    end.

Definition setup_sql : M unit :=
  try_except
    (with_connection cur_executescript_schema)
    is_sqlite3_Error
    (fun e => logging_exception " setup_sql() error: %s" e).

(** *** iterate_files and main *)

(** The body of the [try] of the file loop. *)
Definition process_file (pdf_file : Path) : M unit :=
  extracted_data <- extract_data pdf_file ;;
  match extracted_data with
  | None => ret tt
  | Some d => write_sql d
  end.

Definition iterate_files (files : list Path) : M unit :=
  for_each files (fun pdf_file =>
    try_except (process_file pdf_file) is_Exception
      (fun e => logging_exception " iterate_files() error: %s" e)).

(** [main], given the sorted listing [file_list] of the directory. *)
Definition main (file_list : list Path) : M unit :=
  setup_sql ;;; iterate_files file_list.

End Program.

(** ** Vocabulary of the statements *)

Section Vocabulary.

Variable decimal_value : char -> option Z.

(** The identity pattern matches at position [i] of [text], capturing [fn]
    and [sn]: [i] is a line start, [fn] is a capital followed by one or more
    small letters, a space follows, and [sn] is the whole run of capitals
    after it. *)
Definition identity_at (text : str) (i : nat) (fn sn : str) : Prop :=
  Re.bol_at text i = true /\
  exists c lows rest,
    skipn i text = fn ++ sp :: sn ++ rest /\
    fn = c :: lows /\ Re.upper c = true /\
    lows <> [] /\ forallb Re.lower lows = true /\
    sn <> [] /\ forallb Re.upper sn = true /\
    match rest with
    | [] => True
    | c' :: _ => Re.upper c' = false
    end.

(** The period pattern matches at position [i] of [text] with semester
    [se], year [ye] and report [re]. *)
Definition period_at (text : str) (i : nat) (se ye re : Z) : Prop :=
  Re.bol_at text i = true /\
  exists d1 y1 y2 y3 y4 d2 a1 a2 a3 a4 rest,
    skipn i text =
      codes "Semester " ++ d1 :: codes ", " ++ [y1; y2; y3; y4]
        ++ codes " - Progress Report " ++ d2 :: rest /\
    decimal_value d1 = Some se /\
    decimal_value y1 = Some a1 /\ decimal_value y2 = Some a2 /\
    decimal_value y3 = Some a3 /\ decimal_value y4 = Some a4 /\
    ye = (1000 * a1 + 100 * a2 + 10 * a3 + a4)%Z /\
    decimal_value d2 = Some re.

(** Both patterns match the text of page [p], with captures [md]. *)
Definition both_match (p : Page) (md : Metadata) : Prop :=
  exists text i j,
    get_text p = Return text /\
    identity_at text i (firstname md) (surname md) /\
    period_at text j (semester md) (year md) (report md).

Definition page_matches (p : Page) : Prop := exists md, both_match p md.

(** The captures [md] come from the leftmost match of each pattern in the
    text of page [p]. *)
Definition leftmost_match (p : Page) (md : Metadata) : Prop :=
  exists text i j,
    get_text p = Return text /\
    identity_at text i (firstname md) (surname md) /\
    (forall i' fn sn, identity_at text i' fn sn -> i <= i') /\
    period_at text j (semester md) (year md) (report md) /\
    (forall j' se ye re, period_at text j' se ye re -> j <= j').

End Vocabulary.

(** A row grid is non-empty and some cell of its first row equals the
    marker. *)
Definition carries_marker (g : list Row) : Prop :=
  exists row0 rest, g = row0 :: rest /\ In marker row0.

(** The grids the table loop examines on a list of tables: those before the
    first table whose extraction raises. *)
Fixpoint grids_until_error (ts : list Table) : list (list Row) :=
  match ts with
  | [] => []
  | t :: rest =>
      match extract t with
      | Return g => g :: grids_until_error rest
      | Raise _ => []
      end
  end.

(** The grids examined on a page; none when [find_tables] raises. *)
Definition page_grids (p : Page) : list (list Row) :=
  match find_tables p with
  | Return finder => grids_until_error (tables finder)
  | Raise _ => []
  end.

(** The row persisted for [row]: the metadata and the cells at positions 0
    to 5. *)
Definition report_row (r : ExtractionResult) (row : Row) : ReportRow :=
  {| row_metadata := r;
     subject := nth 0 row None;
     evidence_of_learning := nth 1 row None;
     personal_learning := nth 2 row None;
     working_with_others := nth 3 row None;
     orderly_behaviour := nth 4 row None;
     learning_outside_the_classroom := nth 5 row None |}.

Definition wide (row : Row) : Prop := 6 <= length row.

(** All eleven values of the row can be bound. *)
Definition bindable (v : ReportRow) : Prop := bind_parameters v = None.

Definition bindableb (v : ReportRow) : bool :=
  match bind_parameters v with
  | None => true
  | Some _ => false
  end.

(** A rollback of the world [w] gives the table [t0]: either no transaction
    is open and the table is [t0], or the open transaction started from
    [t0]. *)
Definition txn_ok (t0 : option (list ReportRow)) (w : world) : Prop :=
  match txn w with
  | None => db w = t0
  | Some s => s = t0
  end.

Definition row_error : string * exn :=
  (" write_sql() row error: %s"%string, sqlite3_Error).

(** The table after the rows [vs] were submitted to a store that keeps the
    rows it accepts. *)
Definition stored (accepts : ReportRow -> bool) (t : option (list ReportRow))
    (vs : list ReportRow) : option (list ReportRow) :=
  option_map (fun l => l ++ filter accepts vs) t.

(** *** The marker test as the specification words it

    "its first row's first cell textually contains the marker". *)

Fixpoint is_prefix (a s : str) : bool :=
  match a, s with
  | [], _ => true
  | x :: a', y :: s' => N.eqb x y && is_prefix a' s'
  | _ :: _, [] => false
  end.

Fixpoint has_substring (a s : str) : bool :=
  is_prefix a s ||
  match s with
  | [] => false
  | _ :: s' => has_substring a s'
  end.

Definition spec_first_cell_contains_marker (g : list Row) : bool :=
  match g with
  | (Some c :: _) :: _ => has_substring (codes "Areas Of Assessment") c
  | _ => false
  end.

(** ** Concrete documents *)

Module Examples.

Local Open Scope string_scope.

Definition ascii_decimal (c : char) : option Z :=
  if ((48 <=? c) && (c <=? 57))%N then Some (Z.of_N c - 48)%Z else None.

Definition lf : string := String (ascii_of_nat 10) EmptyString.

Definition cells (l : list string) : Row := map (fun s => Some (codes s)) l.

Definition text_page (t : string) : Page :=
  {| get_text := Return (codes t); find_tables := Return {| tables := [] |} |}.

Definition table_page (gs : list (list Row)) : Page :=
  {| get_text := Return (codes "");
     find_tables := Return {| tables := map (fun g => {| extract := Return g |}) gs |} |}.

Definition page_cover : Page := text_page "Annual report".

Definition page_broken : Page :=
  {| get_text := Raise RuntimeError; find_tables := Raise RuntimeError |}.

Definition page_jane : Page :=
  text_page ("Jane SMITH" ++ lf ++ "Year 9" ++ lf
             ++ "Semester 1, 2024 - Progress Report 2").

Definition page_bob : Page :=
  text_page ("Bob JONES" ++ lf ++ "Semester 2, 2023 - Progress Report 4").

(** A page whose text holds two occurrences of each pattern. *)
Definition page_twice : Page :=
  text_page ("Jane SMITH" ++ lf ++ "Bob JONES" ++ lf
             ++ "Semester 1, 2024 - Progress Report 2" ++ lf
             ++ "Semester 2, 2023 - Progress Report 4").

Definition md_jane : Metadata :=
  {| firstname := codes "Jane"; surname := codes "SMITH";
     year := 2024; semester := 1; report := 2 |}.

Definition header : Row := cells ["Areas Of Assessment"; ""; ""; ""; ""; ""].
Definition spacer : Row := cells [""; ""; ""; ""; ""; ""].
Definition maths : Row := cells ["Mathematics"; "Good"; "Good"; "Good"; "Good"; "Good"].
Definition english : Row := cells ["English"; "Fair"; "Good"; "Good"; "Fair"; "Good"].

Definition grid_report : list Row := [header; spacer; maths; english].
Definition grid_other : list Row := [cells ["Attendance"; "Days"]; cells ["Term 1"; "48"]].

(** A marker table with only its header and spacer rows. *)
Definition grid_headers_only : list Row := [header; spacer].

(** The first cell contains the marker without being equal to it. *)
Definition grid_longer_title : list Row :=
  [cells ["Areas Of Assessment 2024"; ""; ""; ""; ""; ""]; spacer; maths].

(** The marker is the second cell of the first row. *)
Definition grid_marker_second : list Row :=
  [cells [""; "Areas Of Assessment"; ""; ""; ""; ""]; spacer; maths].

Definition art_short : Row := cells ["Art"; "Good"].


Definition result_wide : ExtractionResult :=
  {| metadata := md_jane; all_rows := [maths; english] |}.

Definition result_short : ExtractionResult :=
  {| metadata := md_jane; all_rows := [maths; art_short; english] |}.


Definition w0 : world :=
  {| db := Some []; txn := None; connects := 0; trace := [] |}.

Definition no_table : world :=
  {| db := None; txn := None; connects := 0; trace := [] |}.

(** A directory with three documents. *)
Definition files (f : Path) : outcome Document :=
  if String.eqb f "jane.pdf" then Return [page_jane; table_page [grid_other; grid_report]]
  else if String.eqb f "empty.pdf" then Return [page_jane; table_page [grid_headers_only]]
  else if String.eqb f "short.pdf" then
    Return [page_jane;
            table_page [[header; spacer; cells ["Art"; "Good"]; maths]]]
  else Raise RuntimeError.

Definition never (n : nat) : bool := false.
Definition no_fault (n : nat) : script_fault := ScriptOk.
Definition first_only (n : nat) : bool := Nat.eqb n 0.
Definition any_row (v : ReportRow) : bool := true.

(** A store that refuses the rows of subject English. *)
Definition not_english (v : ReportRow) : bool :=
  negb (cell_eqb (subject v) (Some (codes "English"))).

End Examples.

(** ** Vocabulary of the further properties *)

(** The records passed to [logging.exception], read off a trace. *)
Definition logged (tr : list event) : list (string * exn) :=
  flat_map (fun ev => match ev with Logged m e => [(m, e)] | _ => [] end) tr.

Definition add_events (evs : list event) (w : world) : world :=
  {| db := db w; txn := txn w; connects := connects w; trace := trace w ++ evs |}.

(** One record per page whose [get_text] raises, in page order. *)
Definition text_errors (doc : list Page) : list event :=
  flat_map (fun p => match get_text p with
                     | Raise e => [Logged " extract_metadata() error: %s" e]
                     | Return _ => []
                     end) doc.

Definition wideb (row : Row) : bool := 6 <=? length row.

(** The rows that one [write_sql] of [r] leaves in an existing table when
    its connection opens and its transaction is committed: the accepted
    ones, or none when some row has fewer than six cells or holds a value
    that cannot be bound. *)
Definition persisted_rows (accepts : ReportRow -> bool) (r : ExtractionResult)
    : list ReportRow :=
  if forallb wideb (all_rows r)
     && forallb bindableb (map (report_row r) (all_rows r))
  then filter accepts (map (report_row r) (all_rows r))
  else [].

Definition blank : world :=
  {| db := None; txn := None; connects := 0; trace := [] |}.

(** The rows a file contributes to the table. *)
Definition file_rows (decimal_value : char -> option Z)
    (pymupdf_open : Path -> outcome Document) (accepts : ReportRow -> bool)
    (f : Path) : list ReportRow :=
  match fst (extract_data decimal_value pymupdf_open f blank) with
  | Return (Some r) => persisted_rows accepts r
  | _ => []
  end.

(** The shape of the two name fields. *)
Definition given_name_shape (s : str) : Prop :=
  exists c lows, s = c :: lows /\ Re.upper c = true /\
                 lows <> [] /\ forallb Re.lower lows = true.

Definition surname_shape (s : str) : Prop :=
  s <> [] /\ forallb Re.upper s = true.

Module MoreExamples.
Import Examples.

Local Open Scope string_scope.

(** A page whose second table cannot be extracted; the third carries the
    marker. *)
Definition page_bad_table : Page :=
  {| get_text := Return (codes "");
     find_tables :=
       Return {| tables := [ {| extract := Return grid_other |};
                             {| extract := Raise RuntimeError |};
                             {| extract := Return grid_report |} ] |} |}.

Definition page_report : Page := table_page [grid_report].

(** A store already holding a row. *)
Definition w_old : world :=
  {| db := Some [report_row result_wide english]; txn := None; connects := 4;
     trace := [] |}.

Definition second_only (n : nat) : bool := Nat.eqb n 1.

(** A directory whose only document has no page with both patterns; its
    last page holds the report table. *)
Definition files_unnamed (f : Path) : outcome Document :=
  if String.eqb f "unnamed.pdf"
  then Return [page_cover; page_broken; page_bad_table]
  else Raise RuntimeError.


(** A row whose subject holds the lone surrogate U+D83D. *)
Definition unencodable : Row :=
  Some [55357%N] :: cells ["Good"; "Good"; "Good"; "Good"; "Good"].

Definition result_unencodable : ExtractionResult :=
  {| metadata := md_jane; all_rows := [maths; unencodable; english] |}.

(** A result whose year does not fit in 64 bits. *)
Definition result_far_year : ExtractionResult :=
  {| metadata := {| firstname := codes "Jane"; surname := codes "SMITH";
                    year := 2 ^ 63; semester := 1; report := 2 |};
     all_rows := [maths] |}.



(** The schema script of the first connection fails at its DROP, or at its
    CREATE. *)
Definition drop_fails_first (n : nat) : script_fault :=
  if Nat.eqb n 0 then DropFails else ScriptOk.

Definition create_fails_first (n : nat) : script_fault :=
  if Nat.eqb n 0 then CreateFails else ScriptOk.

End MoreExamples.

(** * Properties *)

Unset Implicit Arguments.

(** ** The matcher *)

Module ReFacts.
Import Re.

Lemma pushl_None : forall r, pushl r None = None.
Proof. induction r as [|c r IH]; simpl; auto. Qed.

Lemma pushl_Some : forall r g, pushl r (Some g) = Some (rev r ++ g).
Proof.
  induction r as [|c r IH]; intros g; simpl; auto.
  unfold pushl in IH. rewrite IH. now rewrite <- app_assoc.
Qed.

Lemma pushl_app : forall r1 r2 cur, pushl (r1 ++ r2) cur = pushl r2 (pushl r1 cur).
Proof. intros. unfold pushl. now rewrite fold_left_app. Qed.

Lemma bol_after_app : forall r1 r2 b,
  bol_after b (r1 ++ r2) = bol_after (bol_after b r1) r2.
Proof. intros. unfold bol_after. now rewrite fold_left_app. Qed.

Lemma bol_after_cons_irrel : forall r c b b',
  bol_after b (c :: r) = bol_after b' (c :: r).
Proof. reflexivity. Qed.

(** A repetition stops at once on an empty text or on a character outside
    the class. *)
Lemma plus_loop_stop : forall p k cur s,
  match s with [] => True | c :: _ => p c = false end ->
  plus_loop p k cur s = None.
Proof.
  intros p k cur [|c s] H; simpl; auto. now rewrite H.
Qed.

(** What a successful repetition consumed: a non-empty run of the class
    after which the rest of the pattern matches, and no longer run does. *)
Lemma plus_loop_inv : forall p k s cur g,
  plus_loop p k cur s = Some g ->
  exists r rest,
    s = r ++ rest /\ r <> [] /\ forallb p r = true /\
    k (bol_after false r) (pushl r cur) rest = Some g /\
    plus_loop p k (pushl r cur) rest = None.
Proof.
  intros p k. induction s as [|c s IH]; intros cur g H; simpl in H.
  - discriminate.
  - destruct (p c) eqn:Hc; [|discriminate].
    destruct (plus_loop p k (push c cur) s) eqn:Hl.
    + injection H as ->.
      destruct (IH _ _ Hl) as (r & rest & -> & Hne & Hall & Hk & Hno).
      exists (c :: r), rest. simpl. rewrite Hc, Hall.
      repeat split; auto; try discriminate.
      destruct r as [|c' r]; [contradiction|]. exact Hk.
    + exists [c], s. simpl. rewrite Hc. repeat split; auto. discriminate.
Qed.

(** The longest run from which the rest of the pattern matches is the one
    the repetition keeps. *)
Lemma plus_loop_longest : forall p k r rest cur g,
  r <> [] -> forallb p r = true ->
  plus_loop p k (pushl r cur) rest = None ->
  k (bol_after false r) (pushl r cur) rest = Some g ->
  plus_loop p k cur (r ++ rest) = Some g.
Proof.
  intros p k. induction r as [|c r IH]; intros rest cur g Hne Hall Hno Hk.
  - contradiction.
  - simpl in Hall. apply andb_true_iff in Hall as [Hc Hall].
    simpl. rewrite Hc. destruct r as [|c' r].
    + simpl in *. now rewrite Hno.
    + rewrite (IH rest (push c cur) g); auto. discriminate.
Qed.

(** A repetition followed by a pattern that cannot fail stops only where
    the class does. *)
Lemma plus_loop_total : forall p k,
  (forall b cur s, k b cur s <> None) ->
  forall s c cur, p c = true -> plus_loop p k cur (c :: s) <> None.
Proof.
  intros p k Hk s c cur Hc. simpl. rewrite Hc.
  destruct (plus_loop p k (push c cur) s); [discriminate|apply Hk].
Qed.

(** A literal piece of a pattern matches exactly its own text. *)
Lemma exec_lits : forall (w : str) q caps b cur s g,
  exec (map (fun c => Chr (lit c)) w ++ q) caps b cur s = Some g <->
  exists s', s = w ++ s' /\ exec q caps (bol_after b w) (pushl w cur) s' = Some g.
Proof.
  induction w as [|c w IH]; intros q caps b cur s g; simpl.
  - split.
    + intros H. now exists s.
    + now intros (s' & -> & H).
  - destruct s as [|c' s].
    + split; [discriminate|]. intros (s' & H & _). discriminate.
    + unfold lit at 1. destruct (N.eqb_spec c c') as [<-|Hne].
      * rewrite IH. split.
        -- intros (s' & -> & H). now exists s'.
        -- intros (s' & Heq & H). injection Heq as ->. now exists s'.
      * split; [discriminate|]. intros (s' & Heq & _). congruence.
Qed.

Lemma search_from_Some : forall prog s b i j g,
  search_from prog b i s = Some (j, g) ->
  exists k, j = i + k /\ k <= length s /\
    match_at prog (bol_rel b s k) (skipn k s) = Some g /\
    forall k', k' < k -> match_at prog (bol_rel b s k') (skipn k' s) = None.
Proof.
  intros prog. induction s as [|c s IH]; intros b i j g H; simpl in H.
  - destruct (match_at prog b []) eqn:Hm; [|discriminate].
    injection H as <- <-. exists 0. repeat split; auto; try lia.
  - destruct (match_at prog b (c :: s)) eqn:Hm.
    + injection H as <- <-. exists 0. repeat split; simpl; auto; lia.
    + destruct (IH _ _ _ _ H) as (k & -> & Hle & Hk & Hmin).
      exists (S k). repeat split; simpl; try lia.
      * destruct k; simpl in *; exact Hk.
      * intros [|k'] Hlt; simpl; auto.
        assert (Hk' : k' < k) by lia. specialize (Hmin k' Hk').
        destruct k'; simpl in *; exact Hmin.
Qed.

Lemma search_from_None : forall prog s b i,
  search_from prog b i s = None ->
  forall k, k <= length s -> match_at prog (bol_rel b s k) (skipn k s) = None.
Proof.
  intros prog. induction s as [|c s IH]; intros b i H k Hk; simpl in H.
  - destruct (match_at prog b []) eqn:Hm; [discriminate|].
    simpl in Hk. assert (k = 0) by lia. subst. exact Hm.
  - destruct (match_at prog b (c :: s)) eqn:Hm; [discriminate|].
    destruct k as [|k]; simpl; auto.
    simpl in Hk. assert (Hk' : k <= length s) by lia.
    specialize (IH _ _ H k Hk'). destruct k; simpl in *; exact IH.
Qed.

Lemma bol_rel_true : forall text k, bol_rel true text k = bol_at text k.
Proof. intros text [|k]; reflexivity. Qed.

(** [search] returns the leftmost position at which the pattern matches. *)
Lemma search_Some : forall prog text i g,
  search prog text = Some (i, g) ->
  match_at prog (bol_at text i) (skipn i text) = Some g /\
  forall i', i' < i -> match_at prog (bol_at text i') (skipn i' text) = None.
Proof.
  intros prog text i g H. unfold search in H.
  destruct (search_from_Some _ _ _ _ _ _ H) as (k & Hi & _ & Hm & Hmin).
  simpl in Hi. subst k. rewrite bol_rel_true in Hm. split; [exact Hm|].
  intros i' Hlt. rewrite <- bol_rel_true. auto.
Qed.

Lemma search_None : forall prog text,
  search prog text = None ->
  forall i, i <= length text ->
    match_at prog (bol_at text i) (skipn i text) = None.
Proof.
  intros prog text H i Hi. rewrite <- bol_rel_true.
  eapply search_from_None; eauto.
Qed.

(** A match somewhere makes the search succeed, at that position or
    before. *)
Lemma search_complete : forall prog text i g,
  i <= length text ->
  match_at prog (bol_at text i) (skipn i text) = Some g ->
  exists j g', search prog text = Some (j, g') /\ j <= i.
Proof.
  intros prog text i g Hi Hm.
  destruct (search prog text) as [[j g']|] eqn:Hs.
  - exists j, g'. split; auto.
    destruct (le_lt_dec j i) as [|Hlt]; auto.
    destruct (search_Some _ _ _ _ Hs) as [_ Hmin].
    rewrite (Hmin i Hlt) in Hm. discriminate.
  - rewrite (search_None _ _ Hs i Hi) in Hm. discriminate.
Qed.

End ReFacts.

(** ** The two patterns *)

Section Patterns.

Variable decimal_value : char -> option Z.

Import Re ReFacts.

Local Abbreviation se_pat := (se_search decimal_value).
Local Abbreviation isdigit := (digit decimal_value).

Lemma exec_GClose_total : forall caps b cur s, exec [GClose] caps b cur s <> None.
Proof. intros. simpl. discriminate. Qed.

(** What a match of the identity pattern looks like. *)
Lemma nm_match_at_inv : forall b s g,
  match_at nm_search b s = Some g ->
  b = true /\
  exists c lows sn rest,
    s = (c :: lows) ++ sp :: sn ++ rest /\
    upper c = true /\ lows <> [] /\ forallb lower lows = true /\
    sn <> [] /\ forallb upper sn = true /\
    match rest with [] => True | c' :: _ => upper c' = false end /\
    g = [c :: lows; sn].
Proof.
  intros b s g H. unfold match_at, nm_search in H. cbn [exec] in H.
  destruct b; [|discriminate]. split; auto.
  destruct s as [|c s1]; [discriminate|].
  destruct (upper c) eqn:Hc; [|discriminate].
  apply plus_loop_inv in H as (lows & rest1 & -> & Hl1 & Hl2 & Hk & _).
  cbn [exec] in Hk. destruct rest1 as [|c' s2]; [discriminate|].
  unfold lit at 1 in Hk. destruct (N.eqb_spec sp c') as [<-|]; [|discriminate].
  apply plus_loop_inv in Hk as (sn & rest & -> & Hs1 & Hs2 & Hk & Hno).
  exists c, lows, sn, rest. repeat split; auto.
  - destruct rest as [|c2 rest]; auto.
    destruct (upper c2) eqn:Hc2; auto.
    exfalso. revert Hno. apply plus_loop_total; auto.
    intros. discriminate.
  - injection Hk as <-.
    unfold push. simpl. rewrite !pushl_Some. simpl.
    now rewrite !rev_app_distr, !rev_involutive.
Qed.

Lemma nm_match_at_complete : forall c lows sn rest,
  upper c = true -> lows <> [] -> forallb lower lows = true ->
  sn <> [] -> forallb upper sn = true ->
  match rest with [] => True | c' :: _ => upper c' = false end ->
  match_at nm_search true ((c :: lows) ++ sp :: sn ++ rest) = Some [c :: lows; sn].
Proof.
  intros c lows sn rest Hc Hl1 Hl2 Hs1 Hs2 Hrest.
  unfold match_at, nm_search. cbn [exec app]. rewrite Hc.
  apply plus_loop_longest; [exact Hl1|exact Hl2|now apply plus_loop_stop|].
  cbn [exec]. unfold lit at 1. rewrite N.eqb_refl.
  apply plus_loop_longest; [exact Hs1|exact Hs2|now apply plus_loop_stop|].
  unfold push. simpl. rewrite !pushl_Some. simpl.
  now rewrite !rev_app_distr, !rev_involutive.
Qed.

(** What a match of the period pattern looks like. *)
Lemma se_match_at_inv : forall b s g,
  match_at se_pat b s = Some g ->
  b = true /\
  exists d1 y1 y2 y3 y4 d2 rest,
    s = codes "Semester " ++ d1 :: codes ", " ++ [y1; y2; y3; y4]
          ++ codes " - Progress Report " ++ d2 :: rest /\
    isdigit d1 = true /\ isdigit y1 = true /\ isdigit y2 = true /\
    isdigit y3 = true /\ isdigit y4 = true /\ isdigit d2 = true /\
    g = [[d1]; [y1; y2; y3; y4]; [d2]].
Proof.
  intros b s g H. unfold match_at, se_search, lits in H.
  cbn [exec] in H. destruct b; [|discriminate]. split; auto.
  apply exec_lits in H as (s1 & -> & H). cbn [exec app] in H.
  destruct s1 as [|d1 s1]; [discriminate|].
  destruct (isdigit d1) eqn:Hd1; [|discriminate].
  apply exec_lits in H as (s2 & -> & H). cbn [exec app] in H.
  destruct s2 as [|y1 s2]; [discriminate|].
  destruct (isdigit y1) eqn:Hy1; [|discriminate].
  destruct s2 as [|y2 s2]; [discriminate|].
  destruct (isdigit y2) eqn:Hy2; [|discriminate].
  destruct s2 as [|y3 s2]; [discriminate|].
  destruct (isdigit y3) eqn:Hy3; [|discriminate].
  destruct s2 as [|y4 s2]; [discriminate|].
  destruct (isdigit y4) eqn:Hy4; [|discriminate].
  apply exec_lits in H as (s3 & -> & H). cbn [exec app] in H.
  destruct s3 as [|d2 rest]; [discriminate|].
  destruct (isdigit d2) eqn:Hd2; [|discriminate].
  exists d1, y1, y2, y3, y4, d2, rest. repeat split; auto.
  cbn [exec] in H. injection H as <-. reflexivity.
Qed.

Lemma se_match_at_complete : forall d1 y1 y2 y3 y4 d2 rest,
  isdigit d1 = true -> isdigit y1 = true -> isdigit y2 = true ->
  isdigit y3 = true -> isdigit y4 = true -> isdigit d2 = true ->
  match_at se_pat true
    (codes "Semester " ++ d1 :: codes ", " ++ [y1; y2; y3; y4]
       ++ codes " - Progress Report " ++ d2 :: rest)
  = Some [[d1]; [y1; y2; y3; y4]; [d2]].
Proof.
  intros d1 y1 y2 y3 y4 d2 rest Hd1 Hy1 Hy2 Hy3 Hy4 Hd2.
  unfold match_at, se_search, lits. cbn [exec].
  apply exec_lits. eexists. split; [reflexivity|].
  cbn [exec app]. rewrite Hd1.
  apply exec_lits. eexists. split; [reflexivity|].
  cbn [exec app]. rewrite Hy1, Hy2, Hy3, Hy4.
  apply exec_lits. eexists. split; [reflexivity|].
  cbn [exec app]. rewrite Hd2. reflexivity.
Qed.

End Patterns.

(** ** Occurrences of the patterns and what the search returns *)

Section Occurrences.

Variable decimal_value : char -> option Z.

Import Re ReFacts.

Local Abbreviation se_pat := (se_search decimal_value).
Local Abbreviation isdigit := (digit decimal_value).
Local Abbreviation period_at := (period_at decimal_value).

Lemma skipn_nonempty_lt : forall (A : Type) (l : list A) i x rest,
  skipn i l = x :: rest -> i < length l.
Proof.
  intros A l i x rest H. destruct (le_lt_dec (length l) i) as [Hle|]; auto.
  rewrite (skipn_all2 l Hle) in H. discriminate.
Qed.

Lemma digit_true : forall c, isdigit c = true <-> exists v, decimal_value c = Some v.
Proof.
  intros c. unfold digit. destruct (decimal_value c) as [v|].
  - split; eauto.
  - split; [discriminate|]. intros [v H]. discriminate.
Qed.

Lemma identity_at_match : forall text i fn sn,
  identity_at text i fn sn <->
  match_at nm_search (bol_at text i) (skipn i text) = Some [fn; sn].
Proof.
  intros text i fn sn. split.
  - intros (Hb & c & lows & rest & Hs & -> & Hc & Hl1 & Hl2 & Hs1 & Hs2 & Hr).
    rewrite Hb, Hs. now apply nm_match_at_complete.
  - intros H. apply nm_match_at_inv in H
      as (Hb & c & lows & sn' & rest & Hs & Hc & Hl1 & Hl2 & Hs1 & Hs2 & Hr & Hg).
    injection Hg as -> ->. split; auto.
    exists c, lows, rest. repeat split; auto.
Qed.

Lemma identity_at_bound : forall text i fn sn,
  identity_at text i fn sn -> i < length text.
Proof.
  intros text i fn sn (_ & c & lows & rest & Hs & -> & _).
  simpl in Hs. eapply skipn_nonempty_lt; eauto.
Qed.

(** At one position the identity pattern has one match. *)
Lemma identity_at_unique : forall text i fn sn fn' sn',
  identity_at text i fn sn -> identity_at text i fn' sn' ->
  fn = fn' /\ sn = sn'.
Proof.
  intros text i fn sn fn' sn' H H'.
  apply identity_at_match in H, H'. rewrite H in H'. now injection H' as -> ->.
Qed.

Lemma nm_search_Some : forall text i g,
  search nm_search text = Some (i, g) ->
  exists fn sn, g = [fn; sn] /\ identity_at text i fn sn /\
    forall i' fn' sn', identity_at text i' fn' sn' -> i <= i'.
Proof.
  intros text i g H. apply search_Some in H as [Hm Hmin].
  pose proof Hm as Hinv. apply nm_match_at_inv in Hinv
    as (_ & c & lows & sn & rest & _ & _ & _ & _ & _ & _ & _ & ->).
  exists (c :: lows), sn. split; auto. split.
  - now apply identity_at_match.
  - intros i' fn' sn' H'. destruct (le_lt_dec i i') as [|Hlt]; auto.
    apply identity_at_match in H'. rewrite (Hmin i' Hlt) in H'. discriminate.
Qed.

Lemma nm_search_None : forall text,
  search nm_search text = None ->
  forall i fn sn, ~ identity_at text i fn sn.
Proof.
  intros text H i fn sn Hat.
  pose proof (identity_at_bound _ _ _ _ Hat) as Hlt.
  apply identity_at_match in Hat.
  rewrite (search_None _ _ H i) in Hat; [discriminate|lia].
Qed.

Lemma nm_search_found : forall text i fn sn,
  identity_at text i fn sn -> exists j g, search nm_search text = Some (j, g).
Proof.
  intros text i fn sn H.
  destruct (search nm_search text) as [[j g]|] eqn:Hs; eauto.
  exfalso. eapply nm_search_None; eauto.
Qed.

(** The integers read from the groups of a period match. *)
Lemma map_int_period : forall d1 y1 y2 y3 y4 d2 se a1 a2 a3 a4 re,
  decimal_value d1 = Some se ->
  decimal_value y1 = Some a1 -> decimal_value y2 = Some a2 ->
  decimal_value y3 = Some a3 -> decimal_value y4 = Some a4 ->
  decimal_value d2 = Some re ->
  map_int decimal_value [[d1]; [y1; y2; y3; y4]; [d2]]
  = Return [se; (1000 * a1 + 100 * a2 + 10 * a3 + a4)%Z; re].
Proof.
  intros d1 y1 y2 y3 y4 d2 se a1 a2 a3 a4 re H1 H2 H3 H4 H5 H6.
  unfold map_int, py_int, digits_value.
  rewrite H1, H2, H3, H4, H5, H6. do 3 f_equal; lia.
Qed.

Lemma period_at_match : forall text i se ye re,
  period_at text i se ye re ->
  exists g, match_at se_pat (bol_at text i) (skipn i text) = Some g /\
            map_int decimal_value g = Return [se; ye; re].
Proof.
  intros text i se ye re
    (Hb & d1 & y1 & y2 & y3 & y4 & d2 & a1 & a2 & a3 & a4 & rest
        & Hs & H1 & H2 & H3 & H4 & H5 & -> & H6).
  rewrite Hb, Hs. eexists. split.
  - apply se_match_at_complete; apply digit_true; eauto.
  - eapply map_int_period; eauto.
Qed.

Lemma match_period_at : forall text i g,
  match_at se_pat (bol_at text i) (skipn i text) = Some g ->
  exists se ye re, map_int decimal_value g = Return [se; ye; re] /\
                   period_at text i se ye re.
Proof.
  intros text i g H. apply se_match_at_inv in H
    as (Hb & d1 & y1 & y2 & y3 & y4 & d2 & rest & Hs
           & H1 & H2 & H3 & H4 & H5 & H6 & ->).
  apply digit_true in H1 as [se H1]. apply digit_true in H2 as [a1 H2].
  apply digit_true in H3 as [a2 H3]. apply digit_true in H4 as [a3 H4].
  apply digit_true in H5 as [a4 H5]. apply digit_true in H6 as [re H6].
  exists se, (1000 * a1 + 100 * a2 + 10 * a3 + a4)%Z, re. split.
  - eapply map_int_period; eauto.
  - split; auto. exists d1, y1, y2, y3, y4, d2, a1, a2, a3, a4, rest.
    repeat split; auto.
Qed.

Lemma period_at_bound : forall text i se ye re,
  period_at text i se ye re -> i < length text.
Proof.
  intros text i se ye re (_ & d1 & y1 & y2 & y3 & y4 & d2 & a1 & a2 & a3 & a4
                            & rest & Hs & _).
  simpl in Hs. eapply skipn_nonempty_lt; eauto.
Qed.

Lemma se_search_Some : forall text j g,
  search se_pat text = Some (j, g) ->
  exists se ye re, map_int decimal_value g = Return [se; ye; re] /\
    period_at text j se ye re /\
    forall j' se' ye' re', period_at text j' se' ye' re' -> j <= j'.
Proof.
  intros text j g H. apply search_Some in H as [Hm Hmin].
  destruct (match_period_at _ _ _ Hm) as (se & ye & re & Hint & Hat).
  exists se, ye, re. split; [exact Hint|]. split; [exact Hat|].
  intros j' se' ye' re' H'. destruct (le_lt_dec j j') as [|Hlt]; auto.
  apply period_at_match in H' as (g' & H' & _).
  rewrite (Hmin j' Hlt) in H'. discriminate.
Qed.

Lemma se_search_None : forall text,
  search se_pat text = None ->
  forall j se ye re, ~ period_at text j se ye re.
Proof.
  intros text H j se ye re Hat.
  pose proof (period_at_bound _ _ _ _ _ Hat) as Hlt.
  apply period_at_match in Hat as (g & Hat & _).
  rewrite (search_None _ _ H j) in Hat; [discriminate|lia].
Qed.

End Occurrences.

(** ** extract_metadata *)

Section MetadataFacts.

Variable decimal_value : char -> option Z.

Local Abbreviation se_pat := (se_search decimal_value).
Local Abbreviation page_body := (metadata_of_page decimal_value).
Local Abbreviation both_match := (both_match decimal_value).
Local Abbreviation page_matches := (page_matches decimal_value).
Local Abbreviation leftmost_match := (leftmost_match decimal_value).

Lemma leftmost_both : forall p md, leftmost_match p md -> both_match p md.
Proof.
  intros p md (text & i & j & Ht & Hi & _ & Hj & _). now exists text, i, j.
Qed.

(** The page body never touches the world. *)
Lemma metadata_of_page_world : forall p w, snd (page_body p w) = w.
Proof.
  intros p w. unfold metadata_of_page, bind, call, ret, raise.
  destruct (get_text p) as [text|e]; simpl; auto.
  destruct (Re.search nm_search text) as [[i g]|]; auto.
  destruct (Re.search se_pat text) as [[j g']|]; auto.
  destruct (group g 1); simpl; auto.
  destruct (group g 2); simpl; auto.
  destruct (map_int decimal_value g') as [[|z1 [|z2 [|z3 [|z4 zs]]]]|]; auto.
Qed.

(** A page body that returns a record took it from the leftmost matches. *)
Lemma metadata_of_page_Some : forall p w md w',
  page_body p w = (Return (Some md), w') -> leftmost_match p md.
Proof.
  intros p w md w' H. unfold metadata_of_page, bind, call, ret, raise in H.
  destruct (get_text p) as [text|e] eqn:Ht; [|discriminate].
  destruct (Re.search nm_search text) as [[i g]|] eqn:Hn; [|discriminate].
  destruct (Re.search se_pat text) as [[j g']|] eqn:Hs; [|discriminate].
  apply nm_search_Some in Hn as (fn & sn & -> & Hi & Hmin).
  apply se_search_Some in Hs as (se & ye & re & Hint & Hj & Hminj).
  simpl in H. rewrite Hint in H. injection H as <- <-.
  exists text, i, j. simpl. repeat split; auto; try apply Hi; try apply Hj.
Qed.

(** On a page where both patterns match, the page body returns a record. *)
Lemma metadata_of_page_found : forall p w,
  page_matches p ->
  exists md, page_body p w = (Return (Some md), w) /\ leftmost_match p md.
Proof.
  intros p w (md0 & text & i0 & j0 & Ht & Hi0 & Hj0).
  destruct (Re.search nm_search text) as [[i g]|] eqn:Hn.
  2:{ exfalso. eapply nm_search_None; eauto. }
  destruct (Re.search se_pat text) as [[j g']|] eqn:Hs.
  2:{ exfalso. eapply se_search_None; eauto. }
  pose proof Hn as Hn'. pose proof Hs as Hs'.
  apply nm_search_Some in Hn' as (fn & sn & -> & Hi & Hmin).
  apply (se_search_Some decimal_value) in Hs' as (se & ye & re & Hint & Hj & Hminj).
  assert (E : page_body p w =
              (Return (Some {| firstname := fn; surname := sn; year := ye;
                               semester := se; report := re |}), w)).
  { unfold metadata_of_page, bind, call, ret, raise.
    rewrite Ht, Hn, Hs. simpl. now rewrite Hint. }
  eexists. split; [exact E|]. eapply metadata_of_page_Some; eauto.
Qed.

Lemma quiet_refl : forall w, quiet w w.
Proof. intros w. repeat split. Qed.

Lemma quiet_trans : forall w1 w2 w3, quiet w1 w2 -> quiet w2 w3 -> quiet w1 w3.
Proof.
  intros w1 w2 w3 (A1 & A2 & A3 & A4) (B1 & B2 & B3 & B4).
  repeat split; congruence.
Qed.

Lemma opened_app : forall t1 t2, opened (t1 ++ t2) = opened t1 ++ opened t2.
Proof. intros. unfold opened. now rewrite flat_map_app. Qed.

Lemma executed_app : forall t1 t2, executed (t1 ++ t2) = executed t1 ++ executed t2.
Proof. intros. unfold executed. now rewrite flat_map_app. Qed.

Lemma quiet_log : forall w msg e, quiet w (add_event (Logged msg e) w).
Proof.
  intros w msg e. repeat split; simpl.
  - rewrite opened_app. simpl. now rewrite app_nil_r.
  - rewrite executed_app. simpl. now rewrite app_nil_r.
Qed.

Lemma extract_metadata_cons_found : forall p w,
  page_matches p ->
  exists md, leftmost_match p md /\
    forall rest, extract_metadata decimal_value (p :: rest) w = (Return (Some md), w).
Proof.
  intros p w Hp. destruct (metadata_of_page_found p w Hp) as (md & E & Hl).
  exists md. split; auto. intros rest.
  cbn [extract_metadata]. unfold bind, try_except. now rewrite E.
Qed.

Lemma extract_metadata_cons_skip : forall p w,
  ~ page_matches p ->
  exists w1, quiet w w1 /\
    forall rest, extract_metadata decimal_value (p :: rest) w
                 = extract_metadata decimal_value rest w1.
Proof.
  intros p w Hp. pose proof (metadata_of_page_world p w) as Hw.
  destruct (page_body p w) as [o w1] eqn:E. simpl in Hw. subst w1.
  destruct o as [[md|]|e].
  - exfalso. apply Hp. exists md. eapply leftmost_both, metadata_of_page_Some; eauto.
  - exists w. split; [apply quiet_refl|]. intros rest.
    cbn [extract_metadata]. unfold bind, try_except. now rewrite E.
  - eexists. split; [apply (quiet_log w " extract_metadata() error: %s" e)|].
    intros rest. cbn [extract_metadata]. unfold bind, try_except. now rewrite E.
Qed.

(** Pages on which the patterns do not both match are passed over. *)
Lemma extract_metadata_prefix : forall pre,
  (forall q, In q pre -> ~ page_matches q) ->
  forall w, exists w1, quiet w w1 /\
    forall rest, extract_metadata decimal_value (pre ++ rest) w
                 = extract_metadata decimal_value rest w1.
Proof.
  induction pre as [|q pre IH]; intros Hpre w.
  - exists w. split; [apply quiet_refl|]. reflexivity.
  - destruct (extract_metadata_cons_skip q w) as (w1 & Hq1 & E1).
    { apply Hpre. now left. }
    destruct (IH (fun q' Hq' => Hpre q' (or_intror Hq')) w1) as (w2 & Hq2 & E2).
    exists w2. split; [eapply quiet_trans; eauto|].
    intros rest. simpl app. now rewrite E1, E2.
Qed.

(** Metadata extraction never raises and leaves the store alone. *)
Lemma extract_metadata_quiet : forall doc w,
  exists r w1, extract_metadata decimal_value doc w = (Return r, w1) /\ quiet w w1.
Proof.
  induction doc as [|p doc IH]; intros w.
  - exists None, w. split; [reflexivity|apply quiet_refl].
  - pose proof (metadata_of_page_world p w) as Hw.
    cbn [extract_metadata]. unfold bind, try_except.
    destruct (page_body p w) as [o w1] eqn:E. simpl in Hw. subst w1.
    destruct o as [[md|]|e].
    + exists (Some md), w. split; [reflexivity|apply quiet_refl].
    + apply IH.
    + simpl. destruct (IH (add_event (Logged " extract_metadata() error: %s" e) w))
        as (r & w1 & E1 & Hq).
      exists r, w1. split; [exact E1|].
      eapply quiet_trans; [apply quiet_log|exact Hq].
Qed.

Lemma extract_metadata_Some : forall doc w md w',
  extract_metadata decimal_value doc w = (Return (Some md), w') ->
  exists p, In p doc /\ leftmost_match p md.
Proof.
  induction doc as [|p doc IH]; intros w md w' H.
  - discriminate.
  - cbn [extract_metadata] in H. unfold bind, try_except in H.
    destruct (page_body p w) as [o w1] eqn:E.
    destruct o as [[md1|]|e].
    + injection H as <- <-. exists p. split; [now left|].
      eapply metadata_of_page_Some; eauto.
    + apply IH in H as (q & Hq & Hl). exists q. split; [now right|auto].
    + simpl in H. apply IH in H as (q & Hq & Hl). exists q. split; [now right|auto].
Qed.

Lemma period_at_unique : forall text j se ye re se' ye' re',
  period_at decimal_value text j se ye re ->
  period_at decimal_value text j se' ye' re' ->
  se = se' /\ ye = ye' /\ re = re'.
Proof.
  intros text j se ye re se' ye' re'
    (_ & d1 & y1 & y2 & y3 & y4 & d2 & a1 & a2 & a3 & a4 & rest
       & Hs & H1 & H2 & H3 & H4 & H5 & -> & H6)
    (_ & d1' & y1' & y2' & y3' & y4' & d2' & a1' & a2' & a3' & a4' & rest'
       & Hs' & H1' & H2' & H3' & H4' & H5' & -> & H6').
  rewrite Hs in Hs'. simpl in Hs'. injection Hs' as -> -> -> -> -> -> _.
  rewrite H1 in H1'. rewrite H2 in H2'. rewrite H3 in H3'.
  rewrite H4 in H4'. rewrite H5 in H5'. rewrite H6 in H6'.
  injection H1' as ->. injection H2' as ->. injection H3' as ->.
  injection H4' as ->. injection H5' as ->. injection H6' as ->.
  auto.
Qed.

End MetadataFacts.

(** ** C2 and C9: metadata extraction *)

Section MetadataClaims.

Variable decimal_value : char -> option Z.

(** C2.  Metadata extraction passes over the pages on which the two patterns
    do not both match; if the next page is one on which both match, the
    result is a record of fields captured on that page, whatever follows it
    (extraction stops there); and a document made only of pages on which the
    patterns do not both match yields no record. *)
Theorem extract_metadata_first_matching_page :
  forall (pre : list Page) (p : Page) (post : list Page) (w : world),
    (forall q, In q pre -> ~ page_matches decimal_value q) ->
    (page_matches decimal_value p ->
       exists md w',
         both_match decimal_value p md /\
         extract_metadata decimal_value (pre ++ p :: post) w = (Return (Some md), w') /\
         extract_metadata decimal_value (pre ++ [p]) w = (Return (Some md), w')) /\
    (exists w', extract_metadata decimal_value pre w = (Return None, w')).
Proof.
  intros pre p post w Hpre.
  destruct (extract_metadata_prefix decimal_value pre Hpre w) as (w1 & _ & E).
  split.
  - intros Hp.
    destruct (extract_metadata_cons_found decimal_value p w1 Hp) as (md & Hl & Ep).
    exists md, w1. split; [now apply leftmost_both|].
    rewrite !E. now rewrite !Ep.
  - exists w1. rewrite <- (app_nil_r pre). now rewrite E.
Qed.

(** C9.  The record returned by metadata extraction comes from a page of the
    document and, in the text of that page, from the leftmost match of the
    identity pattern and the leftmost match of the period pattern: no match
    of either pattern starts earlier, and a match at the same position has
    the same captures. *)
Theorem extract_metadata_leftmost_occurrence :
  forall (doc : Document) (w w' : world) (md : Metadata),
    extract_metadata decimal_value doc w = (Return (Some md), w') ->
    exists p text i j,
      In p doc /\ get_text p = Return text /\
      identity_at text i (firstname md) (surname md) /\
      period_at decimal_value text j (semester md) (year md) (report md) /\
      (forall i' fn sn, identity_at text i' fn sn ->
         i <= i' /\ (i' = i -> fn = firstname md /\ sn = surname md)) /\
      (forall j' se ye re, period_at decimal_value text j' se ye re ->
         j <= j' /\ (j' = j -> se = semester md /\ ye = year md /\ re = report md)).
Proof.
  intros doc w w' md H.
  apply extract_metadata_Some in H as (p & Hin & text & i & j & Ht & Hi & Hmi & Hj & Hmj).
  exists p, text, i, j.
  split; [exact Hin|]. split; [exact Ht|]. split; [exact Hi|]. split; [exact Hj|].
  split.
  - intros i' fn sn H'. split; [eapply Hmi; eauto|].
    intros ->. destruct (identity_at_unique _ _ _ _ _ _ H' Hi); auto.
  - intros j' se ye re H'. split; [eapply Hmj; eauto|].
    intros ->. apply (period_at_unique decimal_value _ _ _ _ _ _ _ _ H' Hj).
Qed.

End MetadataClaims.

Module MetadataWitnesses.
Import Examples.

Lemma no_identity_no_match : forall dv p text,
  get_text p = Return text -> Re.search nm_search text = None ->
  ~ page_matches dv p.
Proof.
  intros dv p text Ht Hs (md & text' & i & j & Ht' & Hi & _).
  rewrite Ht in Ht'. injection Ht' as <-. eapply nm_search_None; eauto.
Qed.

Lemma unreadable_no_match : forall dv p e,
  get_text p = Raise e -> ~ page_matches dv p.
Proof.
  intros dv p e Ht (md & text' & i & j & Ht' & _). congruence.
Qed.

Lemma searches_match : forall dv p text i g j g',
  get_text p = Return text ->
  Re.search nm_search text = Some (i, g) ->
  Re.search (se_search dv) text = Some (j, g') ->
  page_matches dv p.
Proof.
  intros dv p text i g j g' Ht Hn Hs.
  apply nm_search_Some in Hn as (fn & sn & _ & Hi & _).
  apply se_search_Some in Hs as (se & ye & re & _ & Hj & _).
  exists {| firstname := fn; surname := sn; year := ye; semester := se; report := re |}.
  now exists text, i, j.
Qed.

Lemma extract_metadata_first_matching_page_witness :
  (exists md w',
     both_match ascii_decimal page_jane md /\
     extract_metadata ascii_decimal
       ([page_cover; page_broken] ++ page_jane :: [page_bob]) w0
     = (Return (Some md), w') /\
     extract_metadata ascii_decimal ([page_cover; page_broken] ++ [page_jane]) w0
     = (Return (Some md), w')) /\
  (exists w',
     extract_metadata ascii_decimal [page_cover; page_broken] w0 = (Return None, w')).
Proof.
  destruct (extract_metadata_first_matching_page ascii_decimal
              [page_cover; page_broken] page_jane [page_bob] w0) as [Hfound Hnone].
  - intros q [<-|[<-|[]]].
    + eapply no_identity_no_match; [reflexivity|vm_compute; reflexivity].
    + eapply unreadable_no_match; reflexivity.
  - split; [apply Hfound|exact Hnone].
    eapply searches_match; [reflexivity|vm_compute; reflexivity|vm_compute; reflexivity].
Defined.

Lemma extract_metadata_leftmost_occurrence_witness :
  exists p text i j,
    In p [page_twice] /\ get_text p = Return text /\
    identity_at text i (codes "Jane") (codes "SMITH") /\
    period_at ascii_decimal text j 1 2024 2 /\
    (forall i' fn sn, identity_at text i' fn sn ->
       i <= i' /\ (i' = i -> fn = codes "Jane" /\ sn = codes "SMITH")) /\
    (forall j' se ye re, period_at ascii_decimal text j' se ye re ->
       j <= j' /\ (j' = j -> se = 1%Z /\ ye = 2024%Z /\ re = 2%Z)).
Proof.
  apply (extract_metadata_leftmost_occurrence ascii_decimal [page_twice] w0 w0 md_jane).
  vm_compute. reflexivity.
Defined.

End MetadataWitnesses.

(** ** extract_tabledata *)

Lemma str_eqb_eq : forall a b, str_eqb a b = true <-> a = b.
Proof.
  intros a b. unfold str_eqb. destruct (list_eq_dec N.eq_dec a b); split; auto.
  discriminate.
Qed.

Lemma cell_eqb_eq : forall a b, cell_eqb a b = true <-> a = b.
Proof.
  intros [a|] [b|]; simpl; try (split; [discriminate|congruence]).
  - rewrite str_eqb_eq. split; congruence.
  - split; auto.
Qed.

Lemma contains_In : forall row x, contains row x = true <-> In x row.
Proof.
  intros row x. unfold contains. rewrite existsb_exists. split.
  - intros (c & Hin & Heq). apply cell_eqb_eq in Heq. now subst.
  - intros Hin. exists x. split; auto. now apply cell_eqb_eq.
Qed.

(** The test of the code is the membership of the marker in the first row. *)
Lemma qualifies_carries_marker : forall g,
  qualifies g = true <-> carries_marker g.
Proof.
  intros [|row0 rest]; simpl.
  - split; [discriminate|]. intros (r & t & H & _). discriminate.
  - rewrite contains_In. split.
    + intros H. now exists row0, rest.
    + intros (r & t & H & Hin). now injection H as -> ->.
Qed.

Lemma find_app : forall (A : Type) (f : A -> bool) l1 l2,
  find f (l1 ++ l2) = match find f l1 with
                      | Some x => Some x
                      | None => find f l2
                      end.
Proof.
  intros A f. induction l1 as [|x l1 IH]; intros l2; simpl; auto.
  destruct (f x); auto.
Qed.

Lemma find_none_iff : forall (A : Type) (f : A -> bool) l,
  find f l = None <-> forall x, In x l -> f x = false.
Proof.
  intros A f l. split.
  - intros H x Hin. eapply find_none; eauto.
  - induction l as [|x l IH]; intros H; simpl; auto.
    rewrite (H x (or_introl eq_refl)). apply IH. intros y Hy. apply H. now right.
Qed.

(** The loop over the tables of a page returns the rows after the second of
    the first grid it examines that passes the test, and leaves the world
    alone. *)
Lemma scan_tables_spec : forall ts w,
  exists o, scan_tables ts w = (o, w) /\
    match find qualifies (grids_until_error ts) with
    | Some g => o = Return (Some (skipn 2 g))
    | None => o = Return None \/ exists e, o = Raise e
    end.
Proof.
  induction ts as [|t ts IH]; intros w.
  - exists (Return None). split; [reflexivity|]. simpl. now left.
  - cbn [scan_tables grids_until_error]. unfold bind, call.
    destruct (extract t) as [g|e].
    + cbn [find]. destruct (qualifies g).
      * exists (Return (Some (skipn 2 g))). split; reflexivity.
      * apply IH.
    + exists (Raise e). split; [reflexivity|]. simpl. right. now exists e.
Qed.

Lemma tabledata_of_page_spec : forall p w,
  exists o, tabledata_of_page p w = (o, w) /\
    match find qualifies (page_grids p) with
    | Some g => o = Return (Some (skipn 2 g))
    | None => o = Return None \/ exists e, o = Raise e
    end.
Proof.
  intros p w. unfold tabledata_of_page, page_grids, bind, call.
  destruct (find_tables p) as [finder|e].
  - destruct (tables finder) as [|t ts] eqn:Hts.
    + exists (Return None). split; [reflexivity|]. simpl. now left.
    + apply scan_tables_spec.
  - exists (Raise e). split; [reflexivity|]. simpl. right. now exists e.
Qed.

Lemma extract_tabledata_cons_found : forall p g w,
  find qualifies (page_grids p) = Some g ->
  forall rest, extract_tabledata (p :: rest) w = (Return (Some (skipn 2 g)), w).
Proof.
  intros p g w Hf rest. destruct (tabledata_of_page_spec p w) as (o & E & Ho).
  rewrite Hf in Ho. subst o.
  cbn [extract_tabledata]. unfold bind, try_except. now rewrite E.
Qed.

Lemma extract_tabledata_cons_skip : forall p w,
  find qualifies (page_grids p) = None ->
  exists w1, quiet w w1 /\
    forall rest, extract_tabledata (p :: rest) w = extract_tabledata rest w1.
Proof.
  intros p w Hf. destruct (tabledata_of_page_spec p w) as (o & E & Ho).
  rewrite Hf in Ho. destruct Ho as [->|[e ->]].
  - exists w. split; [apply quiet_refl|]. intros rest.
    cbn [extract_tabledata]. unfold bind, try_except. now rewrite E.
  - eexists. split; [apply (quiet_log w " extract_tabledata() error: %s" e)|].
    intros rest. cbn [extract_tabledata]. unfold bind, try_except. now rewrite E.
Qed.

(** Table extraction never raises, leaves the store alone, and returns the
    rows after the second of the first examined grid that passes the test. *)
Lemma extract_tabledata_spec : forall doc w,
  exists w1, quiet w w1 /\
    extract_tabledata doc w
    = (Return (option_map (skipn 2) (find qualifies (flat_map page_grids doc))), w1).
Proof.
  induction doc as [|p doc IH]; intros w.
  - exists w. split; [apply quiet_refl|reflexivity].
  - cbn [flat_map]. rewrite find_app.
    destruct (find qualifies (page_grids p)) as [g|] eqn:Hf.
    + exists w. split; [apply quiet_refl|]. now apply extract_tabledata_cons_found.
    + destruct (extract_tabledata_cons_skip p w Hf) as (w1 & Hq1 & E1).
      destruct (IH w1) as (w2 & Hq2 & E2).
      exists w2. split; [eapply quiet_trans; eauto|]. now rewrite E1.
Qed.

Lemma grids_until_error_app : forall ts1 t ts2 g,
  (forall t', In t' ts1 -> exists g', extract t' = Return g' /\ qualifies g' = false) ->
  extract t = Return g -> qualifies g = true ->
  find qualifies (grids_until_error (ts1 ++ t :: ts2)) = Some g.
Proof.
  induction ts1 as [|t1 ts1 IH]; intros t ts2 g H1 Ht Hg; simpl.
  - rewrite Ht. simpl. now rewrite Hg.
  - destruct (H1 t1 (or_introl eq_refl)) as (g1 & E1 & Hq1).
    rewrite E1. simpl. rewrite Hq1. apply IH; auto.
    intros t' Hin. apply H1. now right.
Qed.

Lemma not_carries_marker : forall g, qualifies g = false <-> ~ carries_marker g.
Proof.
  intros g. rewrite <- qualifies_carries_marker. destruct (qualifies g); split; auto.
  - discriminate.
  - intros H. now contradiction H.
Qed.

(** C3 (amended).  Table extraction scans the pages in document order and the
    tables of a page in detection order.  When no grid examined on the
    earlier pages and no earlier table of the page carries the marker (a
    non-empty grid some cell of whose first row is equal to the marker), a
    table that carries it is selected, and the result is exactly its rows
    from index 2 onward: N - 2 rows for a table of N rows, the k-th being row
    2 + k of the table.  A document none of whose examined grids carries the
    marker yields no rows. *)
Theorem extract_tabledata_first_marked_table :
  forall (pre : list Page) (p : Page) (post : list Page) (finder : TableFinder)
         (ts1 : list Table) (t : Table) (ts2 : list Table) (rows : list Row)
         (w : world),
    (forall q g, In q pre -> In g (page_grids q) -> ~ carries_marker g) ->
    find_tables p = Return finder ->
    tables finder = ts1 ++ t :: ts2 ->
    (forall t', In t' ts1 -> exists g, extract t' = Return g /\ ~ carries_marker g) ->
    extract t = Return rows ->
    (carries_marker rows ->
       exists w',
         extract_tabledata (pre ++ p :: post) w = (Return (Some (skipn 2 rows)), w') /\
         length (skipn 2 rows) = length rows - 2 /\
         forall k, nth_error (skipn 2 rows) k = nth_error rows (2 + k)) /\
    (exists w', extract_tabledata pre w = (Return None, w')).
Proof.
  intros pre p post finder ts1 t ts2 rows w Hpre Hf Hts Hts1 Ht.
  assert (Hnone : find qualifies (flat_map page_grids pre) = None).
  { apply find_none_iff. intros g Hin. apply in_flat_map in Hin as (q & Hq & Hg).
    apply not_carries_marker. eauto. }
  split.
  - intros Hrows.
    destruct (extract_tabledata_spec (pre ++ p :: post) w) as (w1 & _ & E).
    exists w1. split; [|split].
    + rewrite E. rewrite flat_map_app, find_app, Hnone. cbn [flat_map].
      rewrite find_app. unfold page_grids at 1. rewrite Hf, Hts.
      rewrite (grids_until_error_app ts1 t ts2 rows); auto.
      * intros t' Hin. destruct (Hts1 t' Hin) as (g & Hg & Hng).
        exists g. split; auto. now apply not_carries_marker.
      * now apply qualifies_carries_marker.
    + apply length_skipn.
    + intros k. apply nth_error_skipn.
  - destruct (extract_tabledata_spec pre w) as (w1 & _ & E).
    exists w1. now rewrite E, Hnone.
Qed.

Module TableWitnesses.
Import Examples.

Lemma extract_tabledata_first_marked_table_witness :
  (exists w',
     extract_tabledata
       ([page_jane; table_page [grid_other]]
          ++ table_page [grid_other; grid_report; grid_marker_second] :: [page_bob]) w0
     = (Return (Some (skipn 2 grid_report)), w') /\
     length (skipn 2 grid_report) = length grid_report - 2 /\
     forall k, nth_error (skipn 2 grid_report) k = nth_error grid_report (2 + k)) /\
  (exists w',
     extract_tabledata [page_jane; table_page [grid_other]] w0 = (Return None, w')).
Proof.
  destruct (extract_tabledata_first_marked_table
              [page_jane; table_page [grid_other]]
              (table_page [grid_other; grid_report; grid_marker_second])
              [page_bob]
              {| tables := map (fun g => {| extract := Return g |})
                               [grid_other; grid_report; grid_marker_second] |}
              [{| extract := Return grid_other |}]
              {| extract := Return grid_report |}
              [{| extract := Return grid_marker_second |}]
              grid_report w0) as [Hfound Hnone].
  - intros q g [<-|[<-|[]]] Hg; simpl in Hg.
    + contradiction.
    + destruct Hg as [<-|[]]. apply not_carries_marker. vm_compute. reflexivity.
  - reflexivity.
  - reflexivity.
  - intros t' [<-|[]]. exists grid_other. split; [reflexivity|].
    apply not_carries_marker. vm_compute. reflexivity.
  - reflexivity.
  - split; [apply Hfound|exact Hnone].
    apply qualifies_carries_marker. vm_compute. reflexivity.
Defined.

(** C3 as stated fails.  A table whose first cell contains the marker
    without being equal to it is not selected, and a table whose marker is in
    another cell of the first row is. *)
Lemma extract_tabledata_marker_counterexample :
  (spec_first_cell_contains_marker grid_longer_title = true /\
   extract_tabledata [table_page [grid_longer_title]] w0 = (Return None, w0)) /\
  (spec_first_cell_contains_marker grid_marker_second = false /\
   extract_tabledata [table_page [grid_marker_second]] w0
   = (Return (Some [maths]), w0)).
Proof.
  repeat split; vm_compute; reflexivity.
Qed.

End TableWitnesses.

(** ** write_sql *)

Lemma logged_app : forall t1 t2, logged (t1 ++ t2) = logged t1 ++ logged t2.
Proof. intros. unfold logged. now rewrite flat_map_app. Qed.

Lemma first_error_not_sqlite : forall l e,
  (forall x e', In x l -> x = Some e' -> is_sqlite3_Error e' = false) ->
  first_error l = Some e -> is_sqlite3_Error e = false.
Proof.
  induction l as [|x l IH]; intros e H He; simpl in He; [discriminate|].
  destruct x as [e'|].
  - injection He as <-. apply (H (Some e')); auto. now left.
  - apply IH; auto. intros y e' Hy. apply H. now right.
Qed.

Lemma bind_text_not_sqlite : forall s e,
  bind_text s = Some e -> is_sqlite3_Error e = false.
Proof.
  intros s e H. unfold bind_text in H.
  destruct (existsb surrogate s); [|discriminate]. now injection H as <-.
Qed.

Lemma bind_cell_not_sqlite : forall c e,
  bind_cell c = Some e -> is_sqlite3_Error e = false.
Proof.
  intros [s|] e H; simpl in H; [|discriminate]. eapply bind_text_not_sqlite; eauto.
Qed.

Lemma bind_int_not_sqlite : forall z e,
  bind_int z = Some e -> is_sqlite3_Error e = false.
Proof.
  intros z e H. unfold bind_int in H.
  destruct ((- 2 ^ 63 <=? z) && (z <? 2 ^ 63))%Z; [discriminate|].
  now injection H as <-.
Qed.

(** A failure of the binding of the parameters is not a [sqlite3.Error]. *)
Lemma bind_parameters_not_sqlite : forall v e,
  bind_parameters v = Some e -> is_sqlite3_Error e = false.
Proof.
  intros v e H. unfold bind_parameters in H.
  eapply first_error_not_sqlite; [|exact H].
  intros x e' Hin Hx. subst x. simpl in Hin.
  repeat (destruct Hin as [Hin|Hin];
          [first [ now apply bind_text_not_sqlite in Hin
                 | now apply bind_int_not_sqlite in Hin
                 | now apply bind_cell_not_sqlite in Hin ]|]).
  contradiction.
Qed.


Section WriteFacts.

Variable connect_fails : nat -> bool.
Variable commit_fails : nat -> bool.
Variable accepts : ReportRow -> bool.

Local Abbreviation row_body := (write_row accepts).
Local Abbreviation write := (write_sql connect_fails commit_fails accepts).
Local Abbreviation stored := (stored accepts).

Lemma insert_values_wide : forall r row,
  wide row -> insert_values r row = Return (report_row r row).
Proof.
  intros r row H. unfold wide in H.
  destruct row as [|c0 [|c1 [|c2 [|c3 [|c4 [|c5 extra]]]]]]; simpl in H; try lia.
  reflexivity.
Qed.

Lemma insert_values_short : forall r row,
  ~ wide row -> insert_values r row = Raise IndexError.
Proof.
  intros r row H. unfold wide in H.
  destruct row as [|c0 [|c1 [|c2 [|c3 [|c4 [|c5 extra]]]]]]; try reflexivity.
  simpl in H. lia.
Qed.


Lemma insert_values_metadata : forall md rows rows' row,
  insert_values {| metadata := md; all_rows := rows |} row
  = insert_values {| metadata := md; all_rows := rows' |} row.
Proof. reflexivity. Qed.

(** The body of the row loop on a row of at least six cells, case by
    case. *)
Lemma write_row_wide_eq : forall r row w,
  wide row ->
  row_body r row w =
  let v := report_row r row in
  let w1 := add_event (Executed v) w in
  match db w with
  | None => (Return tt, add_event (Logged " write_sql() row error: %s" sqlite3_Error) w1)
  | Some t =>
      match bind_parameters v with
      | Some e => (Raise e, begin_transaction w1)
      | None =>
          if accepts v
          then (Return tt, set_db (Some (t ++ [v])) (begin_transaction w1))
          else (Return tt,
                add_event (Logged " write_sql() row error: %s" sqlite3_Error)
                  (begin_transaction w1))
      end
  end.
Proof.
  intros r row w H.
  unfold write_row, cur_execute_insert, try_except, bind, call, emit,
    logging_exception.
  rewrite (insert_values_wide r row H). cbn [add_event db]. cbv zeta.
  destruct (db w) as [t|]; [|reflexivity].
  destruct (bind_parameters (report_row r row)) as [e|] eqn:Hb.
  - now rewrite (bind_parameters_not_sqlite _ _ Hb).
  - destruct (accepts (report_row r row)); reflexivity.
Qed.

Lemma write_row_short : forall r row w,
  ~ wide row -> row_body r row w = (Raise IndexError, w).
Proof.
  intros r row w H. unfold write_row, try_except, bind, call.
  now rewrite (insert_values_short r row H).
Qed.

Lemma stored_app : forall t vs1 vs2,
  stored (stored t vs1) vs2 = stored t (vs1 ++ vs2).
Proof.
  intros [t|] vs1 vs2; simpl; auto. now rewrite filter_app, app_assoc.
Qed.

Lemma stored_nil : forall t, stored t [] = t.
Proof. intros [t|]; simpl; auto. now rewrite app_nil_r. Qed.

Lemma txn_ok_begin : forall t0 w, txn_ok t0 w -> txn_ok t0 (begin_transaction w).
Proof.
  intros t0 w H. unfold txn_ok, begin_transaction in *.
  destruct (txn w) eqn:E; simpl; rewrite ?E; auto.
Qed.

Lemma txn_ok_rollback : forall t0 w, txn_ok t0 w -> db (rollback w) = t0.
Proof.
  intros t0 w H. unfold txn_ok, rollback in *. destruct (txn w); simpl; auto.
Qed.

Lemma begin_set_db_ok : forall t0 t w,
  txn_ok t0 w -> txn_ok t0 (set_db t (begin_transaction w)).
Proof.
  intros t0 t w H. unfold txn_ok, begin_transaction in *.
  destruct (txn w) eqn:E; simpl; rewrite ?E; auto.
Qed.

(** One turn of the row loop, whatever the row: it opens neither file nor
    connection, keeps the table a rollback would give, appends at most the
    row it was given, and raises no [sqlite3.Error]. *)
Lemma write_row_step : forall r row t0 w,
  exists o w',
    row_body r row w = (o, w') /\
    connects w' = connects w /\
    opened (trace w') = opened (trace w) /\
    (txn_ok t0 w -> txn_ok t0 w') /\
    (db w' = db w \/
     exists t, db w = Some t /\ db w' = Some (t ++ [report_row r row]) /\
               accepts (report_row r row) = true) /\
    (o = Return tt \/ exists e, o = Raise e /\ is_sqlite3_Error e = false).
Proof.
  intros r row t0 w. destruct (le_dec 6 (length row)) as [Hw|Hw].
  - rewrite (write_row_wide_eq r row w Hw). cbv zeta.
    destruct (db w) as [t|] eqn:Hdb.
    + destruct (bind_parameters (report_row r row)) as [e|] eqn:Hb.
      * eexists. eexists. split; [reflexivity|].
        unfold begin_transaction, txn_ok. simpl.
        destruct (txn w) eqn:Ht; simpl; rewrite ?opened_app, ?Ht; simpl;
          rewrite ?app_nil_r;
          (repeat split; auto; [right; exists e; split; auto;
                                eapply bind_parameters_not_sqlite; eauto]).
      * destruct (accepts (report_row r row)) eqn:Ha.
        -- eexists. eexists. split; [reflexivity|].
           unfold begin_transaction, txn_ok. simpl.
           destruct (txn w) eqn:Ht; simpl; rewrite ?opened_app, ?Ht; simpl;
             rewrite ?app_nil_r;
             (repeat split; auto; right; exists t; auto).
        -- eexists. eexists. split; [reflexivity|].
           unfold begin_transaction, txn_ok. simpl.
           destruct (txn w) eqn:Ht; simpl; rewrite ?opened_app, ?Ht; simpl;
             rewrite ?opened_app; simpl; rewrite ?app_nil_r;
             (repeat split; auto).
    + eexists. eexists. split; [reflexivity|]. unfold txn_ok. simpl.
      rewrite !opened_app. simpl. rewrite !app_nil_r. repeat split; auto.
  - rewrite (write_row_short r row w Hw).
    exists (Raise IndexError), w. repeat split; auto.
    right. exists IndexError. auto.
Qed.

Lemma option_map_app_nil : forall (A : Type) (t : option (list A)),
  option_map (fun l => l ++ []) t = t.
Proof. intros A [l|]; simpl; auto. now rewrite app_nil_r. Qed.

Lemma for_each_app : forall (X : Type) (f : X -> M unit) l1 l2 w,
  for_each (l1 ++ l2) f w =
  match for_each l1 f w with
  | (Return _, w1) => for_each l2 f w1
  | (Raise e, w1) => (Raise e, w1)
  end.
Proof.
  intros X f. induction l1 as [|x l1 IH]; intros l2 w; simpl.
  - reflexivity.
  - unfold bind. destruct (f x w) as [[[]|e] w1]; auto.
Qed.

Lemma begin_connects : forall w, connects (begin_transaction w) = connects w.
Proof. intros w. unfold begin_transaction. now destruct (txn w). Qed.

Lemma begin_trace : forall w, trace (begin_transaction w) = trace w.
Proof. intros w. unfold begin_transaction. now destruct (txn w). Qed.

Lemma begin_db : forall w, db (begin_transaction w) = db w.
Proof. intros w. unfold begin_transaction. now destruct (txn w). Qed.

(** The row loop, whatever the rows. *)
Lemma for_each_rows_step : forall r rows t0 w,
  exists o w' X,
    for_each rows (row_body r) w = (o, w') /\
    connects w' = connects w /\
    opened (trace w') = opened (trace w) /\
    (txn_ok t0 w -> txn_ok t0 w') /\
    db w' = option_map (fun t => t ++ X) (db w) /\
    (forall v, In v X -> row_metadata v = metadata r /\ accepts v = true) /\
    (o = Return tt \/ exists e, o = Raise e /\ is_sqlite3_Error e = false).
Proof.
  intros r. induction rows as [|row rows IH]; intros t0 w.
  - exists (Return tt), w, []. rewrite option_map_app_nil.
    split; [reflexivity|]. split; [reflexivity|]. split; [reflexivity|].
    split; [auto|]. split; [reflexivity|]. split; [|now left].
    intros v [].
  - destruct (write_row_step r row t0 w) as (o1 & w1 & E1 & C1 & O1 & T1 & D1 & R1).
    cbn [for_each]. unfold bind. rewrite E1.
    destruct R1 as [->|(e & -> & He)].
    + destruct (IH t0 w1) as (o & w' & X & E & C & O & T & D & HX & R).
      destruct D1 as [D1|(t & Dw & D1 & Ha)].
      * exists o, w', X. rewrite E.
        split; [reflexivity|]. split; [congruence|]. split; [congruence|].
        split; [auto|]. split; [congruence|]. split; [exact HX|exact R].
      * exists o, w', (report_row r row :: X). rewrite E.
        split; [reflexivity|]. split; [congruence|]. split; [congruence|].
        split; [auto|]. split; [|split; [|exact R]].
        -- rewrite D, D1, Dw. simpl. now rewrite <- app_assoc.
        -- intros v [<-|Hv]; [split; [reflexivity|exact Ha]|apply HX; auto].
    + exists (Raise e), w1.
      destruct D1 as [D1|(t & Dw & D1 & Ha)].
      * exists []. rewrite option_map_app_nil.
        split; [reflexivity|]. split; [exact C1|]. split; [exact O1|].
        split; [exact T1|]. split; [exact D1|]. split; [|right; eauto].
        intros v [].
      * exists [report_row r row]. rewrite D1, Dw.
        split; [reflexivity|]. split; [exact C1|]. split; [exact O1|].
        split; [exact T1|]. split; [reflexivity|]. split; [|right; eauto].
        intros v [<-|[]]. split; [reflexivity|exact Ha].
Qed.

(** The row loop over rows of at least six cells whose values can be
    bound: one INSERT per row, in order; the accepted rows are stored; one
    record is logged per INSERT that fails. *)
Lemma for_each_wide : forall r rows w,
  Forall wide rows -> Forall bindable (map (report_row r) rows) ->
  exists w', for_each rows (row_body r) w = (Return tt, w') /\
    connects w' = connects w /\
    opened (trace w') = opened (trace w) /\
    executed (trace w') = executed (trace w) ++ map (report_row r) rows /\
    db w' = stored (db w) (map (report_row r) rows) /\
    logged (trace w')
    = logged (trace w)
      ++ repeat row_error
           (match db w with
            | Some _ => length (filter (fun v => negb (accepts v))
                                  (map (report_row r) rows))
            | None => length rows
            end).
Proof.
  intros r. induction rows as [|row rows IH]; intros w Hw Hb.
  - exists w. simpl. rewrite !app_nil_r, stored_nil.
    repeat split. destruct (db w); simpl; now rewrite app_nil_r.
  - inversion Hw as [|? ? Hrow Hrows]; subst.
    cbn [map] in Hb. inversion Hb as [|? ? Hv Hvs]; subst.
    pose proof (write_row_wide_eq r row w Hrow) as E1. cbv zeta in E1.
    unfold bindable in Hv. rewrite Hv in E1.
    cbn [for_each]. unfold bind. rewrite E1. clear E1.
    destruct (db w) as [t|] eqn:Hdb.
    + destruct (accepts (report_row r row)) eqn:Ha.
      * destruct (IH (set_db (Some (t ++ [report_row r row]))
                        (begin_transaction (add_event (Executed (report_row r row)) w)))
                     Hrows Hvs) as (w' & E & C & O & X & D & L).
        exists w'. split; [exact E|].
        simpl in C, O, X, D, L.
        rewrite begin_connects in C. rewrite begin_trace in O, X, L.
        simpl in C, O, X, L.
        rewrite !opened_app in O. rewrite !executed_app in X.
        rewrite !logged_app in L. simpl in O, X, L. rewrite ?app_nil_r in O.
          rewrite ?app_nil_r in L.
        split; [exact C|]. split; [exact O|]. split; [|split].
        -- rewrite X, <- app_assoc. reflexivity.
        -- rewrite D. simpl. rewrite Ha. now rewrite <- app_assoc.
        -- rewrite L. cbn [map filter]. now rewrite Ha.
      * destruct (IH (add_event (Logged " write_sql() row error: %s" sqlite3_Error)
                        (begin_transaction (add_event (Executed (report_row r row)) w)))
                     Hrows Hvs) as (w' & E & C & O & X & D & L).
        exists w'. split; [exact E|].
        simpl in C, O, X, D, L.
        rewrite begin_connects in C. rewrite begin_trace in O, X, L.
        rewrite begin_db in D, L. simpl in C, O, X, D, L.
        rewrite !opened_app in O. rewrite !executed_app in X.
        rewrite !logged_app in L. simpl in O, X, L. rewrite ?app_nil_r in O.
          rewrite ?app_nil_r in X. rewrite ?app_nil_r in L.
        rewrite Hdb in D, L.
        split; [exact C|]. split; [exact O|]. split; [|split].
        -- rewrite X, <- app_assoc. reflexivity.
        -- rewrite D. simpl. now rewrite Ha.
        -- rewrite L. cbn [map filter]. rewrite Ha. simpl.
           now rewrite <- !app_assoc.
    + destruct (IH (add_event (Logged " write_sql() row error: %s" sqlite3_Error)
                      (add_event (Executed (report_row r row)) w))
                   Hrows Hvs) as (w' & E & C & O & X & D & L).
      exists w'. split; [exact E|].
      simpl in C, O, X, D, L.
      rewrite !opened_app in O. rewrite !executed_app in X.
      rewrite !logged_app in L. simpl in O, X, L. rewrite ?app_nil_r in O.
        rewrite ?app_nil_r in X. rewrite ?app_nil_r in L.
      rewrite Hdb in D, L.
      split; [exact C|]. split; [exact O|]. split; [|split].
      -- rewrite X, <- app_assoc. reflexivity.
      -- rewrite D. reflexivity.
      -- rewrite L. simpl. now rewrite <- !app_assoc.
Qed.



(** The world in which the body of the [with] block starts. *)
Lemma write_sql_connected : forall r w,
  connect_fails (connects w) = false ->
  write r w =
  match connection_exit commit_fails (connects w)
          (for_each (all_rows r) (row_body r)
             (set_txn None (set_connects (S (connects w)) w))) with
  | (Return a, w') => (Return a, w')
  | (Raise e, w') =>
      if is_sqlite3_Error e
      then logging_exception " write_sql() config error: %s" e w'
      else (Raise e, w')
  end.
Proof.
  intros r w Hc. unfold write_sql, try_except, with_connection, sqlite3_connect.
  now rewrite Hc.
Qed.

(** [write_sql] when the connection cannot be opened. *)
Lemma write_sql_no_connection : forall r w,
  connect_fails (connects w) = true ->
  write r w
  = (Return tt,
     add_event (Logged " write_sql() config error: %s" sqlite3_Error)
       (set_connects (S (connects w)) w)).
Proof.
  intros r w Hc. unfold write_sql, try_except, with_connection, sqlite3_connect.
  now rewrite Hc.
Qed.


(** [write_sql] when the connection opens and an exception leaves the row
    loop: the transaction is rolled back and the exception leaves the
    call. *)
Lemma write_sql_raise : forall r w e w1,
  connect_fails (connects w) = false ->
  for_each (all_rows r) (row_body r)
    (set_txn None (set_connects (S (connects w)) w)) = (Raise e, w1) ->
  write r w = (Raise e, rollback w1) /\
  is_sqlite3_Error e = false /\
  db (rollback w1) = db w /\
  connects (rollback w1) = S (connects w) /\
  trace (rollback w1) = trace w1.
Proof.
  intros r w e w1 Hc E.
  destruct (for_each_rows_step r (all_rows r) (db w)
              (set_txn None (set_connects (S (connects w)) w)))
    as (o & w' & X & E' & C & O & T & D & HX & R).
  rewrite E in E'. injection E' as <- <-.
  assert (He : is_sqlite3_Error e = false).
  { destruct R as [R|(e' & R & He)]; [discriminate|]. now injection R as ->. }
  rewrite (write_sql_connected r w Hc), E. unfold connection_exit. rewrite He.
  split; [reflexivity|]. split; [reflexivity|].
  split; [apply txn_ok_rollback, T; reflexivity|].
  simpl in C. unfold rollback. destruct (txn w1); simpl; auto.
Qed.

(** [write_sql] only appends, whatever happens. *)
Lemma write_sql_appends : forall r w,
  exists o w' X,
    write r w = (o, w') /\
    (forall e, o = Raise e -> is_sqlite3_Error e = false) /\
    db w' = option_map (fun t => t ++ X) (db w) /\
    (forall v, In v X -> row_metadata v = metadata r /\ accepts v = true) /\
    connects w' = S (connects w) /\
    opened (trace w') = opened (trace w).
Proof.
  intros r w. destruct (connect_fails (connects w)) eqn:Hc.
  - rewrite (write_sql_no_connection r w Hc).
    eexists. eexists. exists []. split; [reflexivity|].
    rewrite option_map_app_nil. simpl. rewrite opened_app. simpl. rewrite app_nil_r.
    repeat split; auto; try discriminate; contradiction.
  - destruct (for_each_rows_step r (all_rows r) (db w)
                (set_txn None (set_connects (S (connects w)) w)))
      as (o & w1 & X & E & C & O & T & D & HX & R).
    destruct R as [->|(e & -> & He)].
    + rewrite (write_sql_connected r w Hc), E. unfold connection_exit.
      destruct (txn w1) as [t0|] eqn:Ht.
      * destruct (commit_fails (connects w)).
        -- simpl. eexists. eexists. exists []. split; [reflexivity|].
           rewrite option_map_app_nil. simpl.
           rewrite opened_app. simpl. rewrite app_nil_r.
           assert (Hr : db (rollback w1) = db w)
             by (apply txn_ok_rollback, T; reflexivity).
           unfold rollback in *. rewrite Ht in *. simpl in *.
           repeat split; auto; try discriminate; contradiction.
        -- eexists. eexists. exists X. split; [reflexivity|]. simpl.
           repeat split; auto; try discriminate; apply HX; auto.
      * eexists. eexists. exists X. split; [reflexivity|].
        repeat split; auto; try discriminate; apply HX; auto.
    + destruct (write_sql_raise r w e w1 Hc E) as (Ew & _ & Dr & Cr & Tr).
      rewrite Ew. eexists. eexists. exists []. split; [reflexivity|].
      rewrite option_map_app_nil, Tr.
      repeat split; auto; try contradiction. intros e' He'. now injection He' as <-.
Qed.

End WriteFacts.

(** ** C4, C7, C8 and C10: the write step *)

Section WriteClaims.

Variable connect_fails : nat -> bool.
Variable commit_fails : nat -> bool.
Variable accepts : ReportRow -> bool.






(** C10.  On a result whose row sequence is empty, [write_sql] returns
    normally, executes no INSERT and leaves the table as it was. *)
Theorem write_sql_empty_rows :
  forall (md : Metadata) (w : world),
    exists w',
      write_sql connect_fails commit_fails accepts
        {| metadata := md; all_rows := [] |} w
      = (Return tt, w') /\
      db w' = db w /\
      executed (trace w') = executed (trace w).
Proof.
  intros md w. destruct (connect_fails (connects w)) eqn:Hc.
  - rewrite (write_sql_no_connection connect_fails commit_fails accepts _ w Hc).
    eexists. split; [reflexivity|]. simpl. rewrite executed_app. simpl.
    now rewrite app_nil_r.
  - rewrite (write_sql_connected connect_fails commit_fails accepts _ w Hc).
    simpl. eexists. split; [reflexivity|]. split; reflexivity.
Qed.

End WriteClaims.

Module WriteWitnesses.
Import Examples MoreExamples.






End WriteWitnesses.

(** ** extract_data, iterate_files and main *)

Section DriverFacts.

Variable decimal_value : char -> option Z.
Variable pymupdf_open : Path -> outcome Document.
Variable connect_fails : nat -> bool.
Variable script_fault_at : nat -> script_fault.
Variable commit_fails : nat -> bool.
Variable accepts : ReportRow -> bool.

Local Abbreviation data := (extract_data decimal_value pymupdf_open).
Local Abbreviation process :=
  (process_file decimal_value pymupdf_open connect_fails commit_fails accepts).
Local Abbreviation iterate :=
  (iterate_files decimal_value pymupdf_open connect_fails commit_fails accepts).

Lemma quiet_opened : forall f w, opened (trace (add_event (Opened f) w))
  = opened (trace w) ++ [f].
Proof. intros f w. simpl. now rewrite opened_app. Qed.

(** A file that cannot be opened: the handler of [extract_data] raises
    [TypeError] itself. *)
Lemma extract_data_unopened : forall f e w,
  pymupdf_open f = Raise e ->
  data f w = (Raise TypeError, add_event (Opened f) w).
Proof.
  intros f e w Ho.
  unfold extract_data, try_except, bind, emit, call, logging_exception_no_msg, raise.
  now rewrite Ho.
Qed.

(** A file that opens: the result is assembled from the two extractions. *)
Lemma extract_data_opened : forall f doc w,
  pymupdf_open f = Return doc ->
  exists mdo w1,
    extract_metadata decimal_value doc (add_event (Opened f) w) = (Return mdo, w1) /\
    quiet (add_event (Opened f) w) w1 /\
    match mdo with
    | None => data f w = (Return None, w1)
    | Some md =>
        exists ro w2,
          extract_tabledata doc w1 = (Return ro, w2) /\ quiet w1 w2 /\
          data f w = (Return (option_map
                                (fun rows => {| metadata := md; all_rows := rows |})
                                ro), w2)
    end.
Proof.
  intros f doc w Ho.
  destruct (extract_metadata_quiet decimal_value doc (add_event (Opened f) w))
    as (mdo & w1 & E1 & Q1).
  exists mdo, w1. split; [exact E1|]. split; [exact Q1|].
  destruct mdo as [md|].
  - destruct (extract_tabledata_spec doc w1) as (w2 & Q2 & E2).
    eexists. exists w2. split; [exact E2|]. split; [exact Q2|].
    unfold extract_data, try_except, bind, emit, call. rewrite Ho, E1, E2.
    destruct (find qualifies (flat_map page_grids doc)); reflexivity.
  - unfold extract_data, try_except, bind, emit, call. now rewrite Ho, E1.
Qed.

(** [extract_data] opens its file, and nothing else; it leaves the store
    alone and raises nothing but [TypeError]. *)
Lemma extract_data_frame : forall f w,
  exists o w', data f w = (o, w') /\
    (o = Raise TypeError \/ exists r, o = Return r) /\
    opened (trace w') = opened (trace w) ++ [f] /\
    db w' = db w /\ connects w' = connects w.
Proof.
  intros f w. destruct (pymupdf_open f) as [doc|e] eqn:Ho.
  - destruct (extract_data_opened f doc w Ho) as (mdo & w1 & _ & Q1 & H).
    destruct Q1 as (D1 & C1 & O1 & _). rewrite quiet_opened in O1.
    destruct mdo as [md|].
    + destruct H as (ro & w2 & _ & (D2 & C2 & O2 & _) & E).
      eexists. exists w2. split; [exact E|]. split; [right; eauto|].
      simpl in *. repeat split; congruence.
    + eexists. exists w1. split; [exact H|]. split; [right; eauto|].
      simpl in *. repeat split; congruence.
  - eexists. eexists. split; [apply (extract_data_unopened f e w Ho)|].
    split; [now left|]. rewrite quiet_opened. repeat split.
Qed.

Lemma process_file_frame : forall f w,
  exists o w', process f w = (o, w') /\
    opened (trace w') = opened (trace w) ++ [f].
Proof.
  intros f w. destruct (extract_data_frame f w) as (o & w1 & E & _ & O & _).
  unfold process_file, bind. rewrite E. destruct o as [[r|]|e].
  - destruct (write_sql_appends connect_fails commit_fails accepts r w1)
      as (o2 & w2 & X & E2 & _ & _ & _ & _ & O2).
    exists o2, w2. split; [exact E2|congruence].
  - exists (Return tt), w1. split; [reflexivity|exact O].
  - exists (Raise e), w1. split; [reflexivity|exact O].
Qed.

(** One turn of the file loop. *)
Lemma iterate_files_cons : forall f rest w,
  iterate (f :: rest) w =
  match process f w with
  | (Return _, w1) => iterate rest w1
  | (Raise e, w1) =>
      iterate rest (add_event (Logged " iterate_files() error: %s" e) w1)
  end.
Proof.
  intros f rest w. unfold iterate_files. cbn [for_each].
  unfold bind, try_except, logging_exception, emit.
  destruct (process f w) as [[[]|e] w1]; reflexivity.
Qed.

Lemma iterate_files_total : forall files w,
  exists w', iterate files w = (Return tt, w') /\
    opened (trace w') = opened (trace w) ++ files.
Proof.
  induction files as [|f files IH]; intros w.
  - exists w. split; [reflexivity|]. now rewrite app_nil_r.
  - rewrite iterate_files_cons.
    destruct (process_file_frame f w) as (o & w1 & E & O). rewrite E.
    destruct o as [[]|e].
    + destruct (IH w1) as (w2 & E2 & O2). exists w2. split; [exact E2|].
      rewrite O2, O, <- app_assoc. reflexivity.
    + destruct (IH (add_event (Logged " iterate_files() error: %s" e) w1))
        as (w2 & E2 & O2).
      exists w2. split; [exact E2|].
      rewrite O2. simpl. rewrite opened_app, O. simpl.
      rewrite app_nil_r, <- app_assoc. reflexivity.
Qed.

(** [setup_sql] when the connection cannot be opened: the error is logged
    and the function returns. *)
Lemma setup_sql_no_connection : forall w,
  connect_fails (connects w) = true ->
  setup_sql connect_fails script_fault_at commit_fails w
  = (Return tt, add_event (Logged " setup_sql() error: %s" sqlite3_Error)
                  (set_connects (S (connects w)) w)).
Proof.
  intros w Hc. unfold setup_sql, try_except, with_connection, sqlite3_connect.
  now rewrite Hc.
Qed.

End DriverFacts.

(** ** C1, C5 and C6: assembly and the batch driver *)

Section DriverClaims.

Variable decimal_value : char -> option Z.
Variable pymupdf_open : Path -> outcome Document.
Variable connect_fails : nat -> bool.
Variable script_fault_at : nat -> script_fault.
Variable commit_fails : nat -> bool.
Variable accepts : ReportRow -> bool.

(** C1 (amended).  [extract_data] produces a result exactly when the file
    opens, metadata extraction returns a record and table extraction returns
    a row sequence; the result is made of that record and of that row
    sequence, on which no other condition is put, and the file loop hands
    every result produced to [write_sql]. *)
Theorem extract_data_result_iff :
  forall (f : Path) (w w' : world) (r : ExtractionResult),
    (extract_data decimal_value pymupdf_open f w = (Return (Some r), w') <->
     exists doc w1,
       pymupdf_open f = Return doc /\
       extract_metadata decimal_value doc (add_event (Opened f) w)
       = (Return (Some (metadata r)), w1) /\
       extract_tabledata doc w1 = (Return (Some (all_rows r)), w')) /\
    (extract_data decimal_value pymupdf_open f w = (Return (Some r), w') ->
     process_file decimal_value pymupdf_open connect_fails commit_fails accepts f w
     = write_sql connect_fails commit_fails accepts r w').
Proof.
  intros f w w' r. split; [split|].
  - intros H. destruct (pymupdf_open f) as [doc|e] eqn:Ho.
    + destruct (extract_data_opened decimal_value pymupdf_open f doc w Ho)
        as (mdo & w1 & E1 & _ & Hd).
      destruct mdo as [md|].
      * destruct Hd as (ro & w2 & E2 & _ & E). rewrite E in H.
        destruct ro as [rows|]; [|discriminate].
        injection H as <- <-. exists doc, w1. auto.
      * rewrite Hd in H. discriminate.
    + rewrite (extract_data_unopened decimal_value pymupdf_open f e w Ho) in H.
      discriminate.
  - intros (doc & w1 & Ho & E1 & E2).
    unfold extract_data, try_except, bind, emit, call. rewrite Ho, E1, E2.
    now destruct r.
  - intros H. unfold process_file, bind. now rewrite H.
Qed.


(** C6.  The file loop never raises and runs over the whole list: every
    file is opened, in list order.  In one turn of the loop, an exception
    that leaves the processing of the file is logged, and the loop goes on
    with the rest of the list. *)
Theorem iterate_files_always_completes :
  (forall (files : list Path) (w : world),
     exists w',
       iterate_files decimal_value pymupdf_open connect_fails commit_fails accepts files w
       = (Return tt, w') /\
       opened (trace w') = opened (trace w) ++ files) /\
  (forall (f : Path) (rest : list Path) (w : world),
     iterate_files decimal_value pymupdf_open connect_fails commit_fails
       accepts (f :: rest) w
     = match process_file decimal_value pymupdf_open connect_fails commit_fails
       accepts f w with
       | (Return _, w1) =>
           iterate_files decimal_value pymupdf_open connect_fails commit_fails
             accepts rest w1
       | (Raise e, w1) =>
           iterate_files decimal_value pymupdf_open connect_fails commit_fails
             accepts rest
             (add_event (Logged " iterate_files() error: %s" e) w1)
       end).
Proof.
  split.
  - apply iterate_files_total.
  - apply iterate_files_cons.
Qed.

End DriverClaims.

Module DriverWitnesses.
Import Examples.

Local Open Scope string_scope.
Local Open Scope list_scope.

(** C1 as stated fails.  A document whose marker table has only two rows
    yields a result with an empty row sequence, and the file loop opens a
    connection to write it. *)
Lemma extract_data_empty_rows_counterexample :
  fst (run (extract_data ascii_decimal files "empty.pdf") w0)
  = Return (Some {| metadata := md_jane; all_rows := [] |}) /\
  connects (snd (run (iterate_files ascii_decimal files never never any_row
    ["empty.pdf"]) w0))
  = 1.
Proof.
  split; vm_compute; reflexivity.
Qed.



Lemma iterate_files_always_completes_witness :
  (exists w',
     iterate_files ascii_decimal files never never any_row
       ["missing.pdf"; "short.pdf"; "jane.pdf"] w0 = (Return tt, w') /\
     opened (trace w') = opened (trace w0) ++ ["missing.pdf"; "short.pdf"; "jane.pdf"]) /\
  iterate_files ascii_decimal files never never any_row ["missing.pdf"; "jane.pdf"] w0
  = iterate_files ascii_decimal files never never any_row ["jane.pdf"]
      (add_event (Logged " iterate_files() error: %s" TypeError)
         (add_event (Opened "missing.pdf") w0)).
Proof.
  destruct (iterate_files_always_completes ascii_decimal files never never any_row)
    as [Htotal Hturn].
  split; [apply Htotal|]. rewrite Hturn. reflexivity.
Defined.

End DriverWitnesses.

(** ** Complements *)

(** Every text splits into its leading run of capitals and the rest. *)
Lemma upper_run : forall s : str,
  exists r rest,
    s = r ++ rest /\ forallb Re.upper r = true /\
    match rest with [] => True | c :: _ => Re.upper c = false end.
Proof.
  induction s as [|c s (r & rest & -> & Hr & Hrest)].
  - exists [], []. repeat split.
  - destruct (Re.upper c) eqn:Hc.
    + exists (c :: r), rest. simpl. rewrite Hc, Hr. repeat split. exact Hrest.
    + exists [], (c :: r ++ rest). repeat split. exact Hc.
Qed.

(** The identity pattern matches wherever a line starts with a capital, one
    or more small letters, a space and one or more capitals: the surname
    captured there is the whole run of capitals. *)
Lemma identity_at_of_shape : forall text i c lows ups rest,
  Re.bol_at text i = true ->
  skipn i text = (c :: lows) ++ sp :: ups ++ rest ->
  Re.upper c = true -> lows <> [] -> forallb Re.lower lows = true ->
  ups <> [] -> forallb Re.upper ups = true ->
  exists sn, identity_at text i (c :: lows) sn.
Proof.
  intros text i c lows ups rest Hb Hs Hc Hl1 Hl2 Hu1 Hu2.
  destruct (upper_run rest) as (r & rest' & -> & Hr & Hrest').
  exists (ups ++ r). split; [exact Hb|].
  exists c, lows, rest'. split.
  - rewrite Hs. now rewrite <- !app_assoc.
  - repeat split; auto.
    + intros H. apply app_eq_nil in H as [H _]. contradiction.
    + rewrite forallb_app, Hu2, Hr. reflexivity.
Qed.

(** On a page whose lookups all succeed, every table is examined. *)
Lemma page_grids_all : forall finder p,
  find_tables p = Return finder ->
  (forall t, In t (tables finder) -> exists g, extract t = Return g) ->
  map extract (tables finder) = map Return (page_grids p).
Proof.
  intros finder p Hf Hall. unfold page_grids. rewrite Hf.
  induction (tables finder) as [|t ts IH]; simpl; auto.
  destruct (Hall t (or_introl eq_refl)) as (g & Hg). rewrite Hg. simpl.
  f_equal. apply IH. intros t' Hin. apply Hall. now right.
Qed.

Module EndToEnd.
Import Examples.

Local Open Scope string_scope.
Local Open Scope list_scope.

(** A run of [main] over one document on a store without table: the schema
    is created and the two rows of the report table are persisted with the
    metadata of the first page. *)
Example main_one_document :
  db (snd (run (main ascii_decimal files never no_fault never any_row
    ["jane.pdf"]) no_table))
  = Some [report_row result_wide maths; report_row result_wide english].
Proof. vm_compute. reflexivity. Qed.

(** An unreadable file and a document with a short row do not stop the
    batch: the rows of the last document are persisted, those of the
    document with the short row are not. *)
Example main_three_documents :
  run (main ascii_decimal files never no_fault never any_row
         ["missing.pdf"; "short.pdf"; "jane.pdf"]) no_table
  = (Return tt,
     {| db := Some [report_row result_wide maths; report_row result_wide english];
        txn := None;
        connects := 3;
        trace :=
          [Opened "missing.pdf";
           Logged " iterate_files() error: %s" TypeError;
           Opened "short.pdf";
           Logged " iterate_files() error: %s" IndexError;
           Opened "jane.pdf";
           Executed (report_row result_wide maths);
           Executed (report_row result_wide english)] |}).
Proof. vm_compute. reflexivity. Qed.

End EndToEnd.

(** * Further properties *)

(** ** Metadata extraction: what is logged, and the shape of a record *)

Lemma add_events_nil : forall w, add_events [] w = w.
Proof. intros [d x c t]. unfold add_events. simpl. now rewrite app_nil_r. Qed.

Lemma add_events_cons : forall ev evs w,
  add_events (ev :: evs) w = add_events evs (add_event ev w).
Proof.
  intros ev evs w. unfold add_events, add_event. simpl.
  now rewrite <- app_assoc.
Qed.

Lemma add_events_app : forall evs1 evs2 w,
  add_events (evs1 ++ evs2) w = add_events evs2 (add_events evs1 w).
Proof.
  intros evs1 evs2 w. unfold add_events. simpl. now rewrite app_assoc.
Qed.

Section FurtherMetadata.

Variable decimal_value : char -> option Z.

Lemma metadata_of_page_readable : forall p text w,
  get_text p = Return text ->
  exists o, metadata_of_page decimal_value p w = (Return o, w).
Proof.
  intros p text w Ht. unfold metadata_of_page, bind, call, ret, raise.
  rewrite Ht.
  destruct (Re.search nm_search text) as [[i g]|] eqn:Hn; [|eauto].
  destruct (Re.search (se_search decimal_value) text) as [[j g']|] eqn:Hs; [|eauto].
  apply nm_search_Some in Hn as (fn & sn & -> & _).
  apply se_search_Some in Hs as (se & ye & re & Hint & _).
  simpl. rewrite Hint. eauto.
Qed.

Lemma extract_metadata_unreadable : forall p e rest w,
  get_text p = Raise e ->
  extract_metadata decimal_value (p :: rest) w
  = extract_metadata decimal_value rest
      (add_event (Logged " extract_metadata() error: %s" e) w).
Proof.
  intros p e rest w Ht. cbn [extract_metadata].
  unfold bind at 1. unfold try_except, metadata_of_page, bind, call.
  now rewrite Ht.
Qed.

Lemma extract_metadata_readable_skip : forall p text rest w,
  get_text p = Return text -> ~ page_matches decimal_value p ->
  extract_metadata decimal_value (p :: rest) w
  = extract_metadata decimal_value rest w.
Proof.
  intros p text rest w Ht Hp.
  destruct (metadata_of_page_readable p text w Ht) as (o & E).
  cbn [extract_metadata]. unfold bind, try_except. rewrite E.
  destruct o as [md|]; auto.
  exfalso. apply Hp. exists md. eapply leftmost_both, metadata_of_page_Some; eauto.
Qed.

(** X1.  On a page whose text can be read, the page body of metadata
    extraction never raises: the integers are read from groups that hold
    decimal digits only, so the [except] branch is reached through
    [get_text] alone. *)
Theorem metadata_of_page_raises_only_on_get_text :
  forall (p : Page) (text : str) (w : world),
    get_text p = Return text ->
    exists o, metadata_of_page decimal_value p w = (Return o, w).
Proof. exact metadata_of_page_readable. Qed.

Lemma extract_metadata_passes_over :
  forall (pre rest : list Page) (w : world),
    (forall q, In q pre -> ~ page_matches decimal_value q) ->
    extract_metadata decimal_value (pre ++ rest) w
    = extract_metadata decimal_value rest (add_events (text_errors pre) w) /\
    extract_metadata decimal_value pre w
    = (Return None, add_events (text_errors pre) w).
Proof.
  intros pre rest w Hpre.
  assert (H : forall rest' w',
             extract_metadata decimal_value (pre ++ rest') w'
             = extract_metadata decimal_value rest'
                 (add_events (text_errors pre) w')).
  { induction pre as [|q pre IH]; intros rest' w'.
    - simpl. now rewrite add_events_nil.
    - assert (Hq : ~ page_matches decimal_value q) by (apply Hpre; now left).
      assert (Hpre' : forall q', In q' pre -> ~ page_matches decimal_value q')
        by (intros q' Hq'; apply Hpre; now right).
      simpl app. unfold text_errors. cbn [flat_map]. fold (text_errors pre).
      destruct (get_text q) as [text|e] eqn:Ht.
      + rewrite (extract_metadata_readable_skip q text _ _ Ht Hq).
        simpl app. now apply IH.
      + rewrite (extract_metadata_unreadable q e _ _ Ht).
        simpl app. rewrite add_events_cons. now apply IH. }
  split; [apply H|].
  rewrite <- (app_nil_r pre) at 1. now rewrite H.
Qed.

(** X2.  While no page matches both patterns, metadata extraction logs
    exactly one record per page whose text cannot be read, in page order,
    and nothing for the other pages; it changes nothing else.  A document
    without matching page therefore returns no record, with these log
    records as its only effect. *)
Theorem extract_metadata_logs_unreadable_pages :
  forall (pre rest : list Page) (w : world),
    (forall q, In q pre -> ~ page_matches decimal_value q) ->
    extract_metadata decimal_value (pre ++ rest) w
    = extract_metadata decimal_value rest (add_events (text_errors pre) w) /\
    extract_metadata decimal_value pre w
    = (Return None, add_events (text_errors pre) w).
Proof. exact extract_metadata_passes_over. Qed.

Lemma decimal_bound_year : forall a1 a2 a3 a4 : Z,
  (0 <= a1 <= 9 -> 0 <= a2 <= 9 -> 0 <= a3 <= 9 -> 0 <= a4 <= 9 ->
   0 <= 1000 * a1 + 100 * a2 + 10 * a3 + a4 <= 9999)%Z.
Proof. intros. lia. Qed.

(** X3.  A record returned by metadata extraction has a first name made of
    one capital followed by one or more small letters, a surname made of
    one or more capitals, a semester and a report number between 0 and 9 and
    a year between 0 and 9999, given that decimal digits have values from 0
    to 9. *)
Theorem extract_metadata_record_shape :
  forall (doc : Document) (w w' : world) (md : Metadata),
    (forall c d, decimal_value c = Some d -> (0 <= d <= 9)%Z) ->
    extract_metadata decimal_value doc w = (Return (Some md), w') ->
    given_name_shape (firstname md) /\
    surname_shape (surname md) /\
    (0 <= semester md <= 9)%Z /\
    (0 <= year md <= 9999)%Z /\
    (0 <= report md <= 9)%Z.
Proof.
  intros doc w w' md Hdv H.
  apply extract_metadata_Some in H
    as (p & _ & text & i & j & _ & Hi & _ & Hj & _).
  destruct Hi as (_ & c & lows & rest & _ & Hfn & Hc & Hl1 & Hl2 & Hs1 & Hs2 & _).
  destruct Hj as (_ & d1 & y1 & y2 & y3 & y4 & d2 & a1 & a2 & a3 & a4 & rest'
                    & _ & H1 & H2 & H3 & H4 & H5 & Hy & H6).
  split; [now exists c, lows|]. split; [now split|].
  split; [eapply Hdv; eauto|]. split; [|eapply Hdv; eauto].
  rewrite Hy. apply decimal_bound_year; eapply Hdv; eauto.
Qed.

End FurtherMetadata.

Module FurtherMetadataWitnesses.
Import Examples.

Lemma metadata_of_page_raises_only_on_get_text_witness :
  exists o, metadata_of_page ascii_decimal page_twice w0 = (Return o, w0).
Proof.
  apply (metadata_of_page_raises_only_on_get_text ascii_decimal page_twice
           (codes ("Jane SMITH" ++ lf ++ "Bob JONES" ++ lf
                   ++ "Semester 1, 2024 - Progress Report 2" ++ lf
                   ++ "Semester 2, 2023 - Progress Report 4")) w0).
  reflexivity.
Defined.

Lemma extract_metadata_logs_unreadable_pages_witness :
  extract_metadata ascii_decimal
    ([page_broken; page_cover; page_broken] ++ [page_jane]) w0
  = extract_metadata ascii_decimal [page_jane]
      (add_events (text_errors [page_broken; page_cover; page_broken]) w0) /\
  extract_metadata ascii_decimal [page_broken; page_cover; page_broken] w0
  = (Return None, add_events (text_errors [page_broken; page_cover; page_broken]) w0).
Proof.
  apply (extract_metadata_logs_unreadable_pages ascii_decimal
           [page_broken; page_cover; page_broken] [page_jane] w0).
  intros q [<-|[<-|[<-|[]]]].
  - eapply MetadataWitnesses.unreadable_no_match; reflexivity.
  - eapply MetadataWitnesses.no_identity_no_match; [reflexivity|vm_compute; reflexivity].
  - eapply MetadataWitnesses.unreadable_no_match; reflexivity.
Defined.

Lemma ascii_decimal_range : forall c d,
  ascii_decimal c = Some d -> (0 <= d <= 9)%Z.
Proof.
  intros c d H. unfold ascii_decimal in H.
  destruct ((48 <=? c)%N && (c <=? 57)%N) eqn:E; [|discriminate].
  injection H as <-. apply andb_true_iff in E as [E1 E2].
  apply N.leb_le in E1, E2. lia.
Qed.

Lemma extract_metadata_record_shape_witness :
  given_name_shape (firstname md_jane) /\
  surname_shape (surname md_jane) /\
  (0 <= semester md_jane <= 9)%Z /\
  (0 <= year md_jane <= 9999)%Z /\
  (0 <= report md_jane <= 9)%Z.
Proof.
  apply (extract_metadata_record_shape ascii_decimal
           [page_cover; page_jane] w0 w0 md_jane).
  - exact ascii_decimal_range.
  - vm_compute. reflexivity.
Defined.

End FurtherMetadataWitnesses.

(** ** Table extraction: errors and effects *)

Lemma scan_tables_raise : forall ts1 t ts2 e w,
  (forall t', In t' ts1 -> exists g, extract t' = Return g /\ qualifies g = false) ->
  extract t = Raise e ->
  scan_tables (ts1 ++ t :: ts2) w = (Raise e, w).
Proof.
  induction ts1 as [|t1 ts1 IH]; intros t ts2 e w H1 Ht.
  - simpl. unfold bind, call. now rewrite Ht.
  - destruct (H1 t1 (or_introl eq_refl)) as (g & Hg & Hq).
    simpl. unfold bind, call. rewrite Hg, Hq. apply IH; auto.
    intros t' Hin. apply H1. now right.
Qed.

(** X4.  When the extraction of a table raises, the page is abandoned: the
    error is logged once and the scan goes on with the next page, so the
    tables that follow the failing one on the same page are never examined,
    whatever they hold. *)
Theorem extract_tabledata_abandons_page_on_error :
  forall (p : Page) (finder : TableFinder) (ts1 : list Table) (t : Table)
         (ts2 : list Table) (e : exn) (rest : list Page) (w : world),
    find_tables p = Return finder ->
    tables finder = ts1 ++ t :: ts2 ->
    (forall t', In t' ts1 -> exists g, extract t' = Return g /\ ~ carries_marker g) ->
    extract t = Raise e ->
    extract_tabledata (p :: rest) w
    = extract_tabledata rest
        (add_event (Logged " extract_tabledata() error: %s" e) w).
Proof.
  intros p finder ts1 t ts2 e rest w Hf Hts H1 Ht.
  assert (E : tabledata_of_page p w = (Raise e, w)).
  { unfold tabledata_of_page, bind, call. rewrite Hf, Hts.
    rewrite <- (scan_tables_raise ts1 t ts2 e w); auto.
    - destruct ts1; reflexivity.
    - intros t' Hin. destruct (H1 t' Hin) as (g & Hg & Hn).
      exists g. split; auto. now apply not_carries_marker. }
  cbn [extract_tabledata]. unfold bind at 1. unfold try_except. now rewrite E.
Qed.

(** X5.  The two extractors never raise and never touch the store: whatever
    the pages do, each returns a value, and the table, the connection
    counter, the files opened and the statements executed are as before. *)
Theorem extractors_return_and_leave_store :
  forall (decimal_value : char -> option Z) (doc : Document) (w : world),
    (exists mdo w1,
       extract_metadata decimal_value doc w = (Return mdo, w1) /\ quiet w w1) /\
    (exists ro w1,
       extract_tabledata doc w = (Return ro, w1) /\ quiet w w1).
Proof.
  intros dv doc w. split.
  - apply extract_metadata_quiet.
  - destruct (extract_tabledata_spec doc w) as (w1 & Q & E). eauto.
Qed.

Module FurtherTableWitnesses.
Import Examples MoreExamples.

Lemma extract_tabledata_abandons_page_on_error_witness :
  extract_tabledata (page_bad_table :: [page_report]) w0
  = extract_tabledata [page_report]
      (add_event (Logged " extract_tabledata() error: %s" RuntimeError) w0).
Proof.
  apply (extract_tabledata_abandons_page_on_error page_bad_table
           {| tables := [ {| extract := Return grid_other |};
                          {| extract := Raise RuntimeError |};
                          {| extract := Return grid_report |} ] |}
           [{| extract := Return grid_other |}]
           {| extract := Raise RuntimeError |}
           [{| extract := Return grid_report |}]
           RuntimeError [page_report] w0).
  - reflexivity.
  - reflexivity.
  - intros t' [<-|[]]. exists grid_other. split; [reflexivity|].
    apply not_carries_marker. vm_compute. reflexivity.
  - reflexivity.
Defined.

End FurtherTableWitnesses.

(** ** The write step: connection, table and row errors *)




Section FurtherWrite.

Variable connect_fails : nat -> bool.
Variable script_fault_at : nat -> script_fault.
Variable commit_fails : nat -> bool.
Variable accepts : ReportRow -> bool.


(** The row loop stopped by a short row after rows that go through. *)
Lemma for_each_until_short : forall r rows1 row rows2 w,
  Forall wide rows1 -> Forall bindable (map (report_row r) rows1) ->
  ~ wide row ->
  exists w', for_each (rows1 ++ row :: rows2) (write_row accepts r) w
             = (Raise IndexError, w') /\
    executed (trace w') = executed (trace w) ++ map (report_row r) rows1.
Proof.
  intros r rows1 row rows2 w H1 Hb Hrow.
  destruct (for_each_wide accepts r rows1 w H1 Hb) as (w1 & E1 & _ & _ & X1 & _).
  exists w1. rewrite for_each_app, E1. cbn [for_each]. unfold bind.
  rewrite (write_row_short accepts r row w1 Hrow). auto.
Qed.

(** The row loop stopped by a value that cannot be bound, on an existing
    table. *)
Lemma for_each_until_unbindable : forall r rows1 row rows2 w t e,
  db w = Some t ->
  Forall wide rows1 -> Forall bindable (map (report_row r) rows1) ->
  wide row -> bind_parameters (report_row r row) = Some e ->
  exists w', for_each (rows1 ++ row :: rows2) (write_row accepts r) w
             = (Raise e, w') /\
    executed (trace w')
    = executed (trace w) ++ map (report_row r) rows1 ++ [report_row r row].
Proof.
  intros r rows1 row rows2 w t e Hdb H1 Hb Hrow He.
  destruct (for_each_wide accepts r rows1 w H1 Hb) as (w1 & E1 & _ & _ & X1 & D1 & _).
  rewrite for_each_app, E1. cbn [for_each]. unfold bind.
  pose proof (write_row_wide_eq accepts r row w1 Hrow) as E. cbv zeta in E.
  rewrite D1, Hdb in E. simpl in E. rewrite He in E. rewrite E.
  eexists. split; [reflexivity|].
  rewrite begin_trace. simpl. rewrite executed_app, X1. simpl.
  now rewrite <- app_assoc.
Qed.

End FurtherWrite.

Section FurtherWriteClaims.

Variable connect_fails : nat -> bool.
Variable script_fault_at : nat -> script_fault.
Variable commit_fails : nat -> bool.
Variable accepts : ReportRow -> bool.


(** [setup_sql] when the connection opens and the script fails. *)
Lemma setup_sql_script_fails : forall w,
  connect_fails (connects w) = false ->
  script_fault_at (connects w) <> ScriptOk ->
  exists w1,
    setup_sql connect_fails script_fault_at commit_fails w = (Return tt, w1) /\
    trace w1 = trace w ++ [Logged " setup_sql() error: %s" sqlite3_Error] /\
    db w1 = match script_fault_at (connects w) with
            | CreateFails => None
            | _ => db w
            end /\
    connects w1 = S (connects w).
Proof.
  intros w Hc Hs.
  unfold setup_sql, try_except, with_connection, sqlite3_connect,
    cur_executescript_schema, connection_exit.
  rewrite Hc. simpl.
  destruct (script_fault_at (connects w)); [contradiction| |];
    simpl; eexists; repeat split.
Qed.

(** X6.  [write_sql] only appends: the rows already in the table stay first
    and unchanged, the rows added carry the metadata of the result and were
    accepted by the store, a missing table is never created, exactly one
    connection is opened, and no [sqlite3.Error] ever leaves the call (an
    exception that leaves it is one that neither handler catches). *)
Theorem write_sql_append_only :
  forall (r : ExtractionResult) (w : world),
    exists o w' X,
      write_sql connect_fails commit_fails accepts r w = (o, w') /\
      (forall e, o = Raise e -> is_sqlite3_Error e = false) /\
      db w' = option_map (fun t => t ++ X) (db w) /\
      (forall v, In v X -> row_metadata v = metadata r /\ accepts v = true) /\
      connects w' = S (connects w).
Proof.
  intros r w.
  destruct (write_sql_appends connect_fails commit_fails accepts r w)
    as (o & w' & X & E & R & D & HX & C & _).
  exists o, w', X. auto.
Qed.

(** X7.  When the connection cannot be opened, [write_sql] logs one
    configuration error and returns normally, whatever the rows are: no row
    is read, so even a row with fewer than six cells raises nothing, no
    INSERT is executed and the table is unchanged. *)
Theorem write_sql_connection_failure :
  forall (r : ExtractionResult) (w : world),
    connect_fails (connects w) = true ->
    write_sql connect_fails commit_fails accepts r w
    = (Return tt,
       add_event (Logged " write_sql() config error: %s" sqlite3_Error)
         (set_connects (S (connects w)) w)).
Proof.
  intros r w Hc. now apply write_sql_no_connection.
Qed.


(** X9.  When the connection opens and the first row with fewer than six
    cells comes after rows [rows1] that have six cells and values that can
    be bound, [write_sql] executes the INSERTs of [rows1] and no other,
    raises [IndexError], and leaves the table exactly as it was: the rows of
    [rows1] that were inserted are rolled back. *)
Theorem write_sql_short_row_rolls_back :
  forall (r : ExtractionResult) (rows1 : list Row) (row : Row)
         (rows2 : list Row) (w : world),
    connect_fails (connects w) = false ->
    all_rows r = rows1 ++ row :: rows2 ->
    Forall wide rows1 ->
    Forall bindable (map (report_row r) rows1) ->
    ~ wide row ->
    exists w',
      write_sql connect_fails commit_fails accepts r w = (Raise IndexError, w') /\
      executed (trace w') = executed (trace w) ++ map (report_row r) rows1 /\
      db w' = db w.
Proof.
  intros r rows1 row rows2 w Hc Hrows H1 Hb Hrow.
  destruct (for_each_until_short accepts r rows1 row rows2
              (set_txn None (set_connects (S (connects w)) w)) H1 Hb Hrow)
    as (w1 & E & X).
  rewrite <- Hrows in E.
  destruct (write_sql_raise connect_fails commit_fails accepts r w _ w1 Hc E)
    as (Ew & _ & D & _ & T).
  exists (rollback w1). split; [exact Ew|]. split; [|exact D].
  rewrite T. exact X.
Qed.


(** X18.  When the table exists, the connection opens and, after rows
    [rows1] that go through, a row of six cells holds a value that cannot be
    bound (a lone surrogate in a text, an integer outside 64 bits), the
    error of the binding is not a [sqlite3.Error]: it leaves [write_sql],
    the rows after it are never submitted, and the table is left exactly as
    it was, the rows of [rows1] being rolled back. *)
Theorem write_sql_unbindable_row_rolls_back :
  forall (r : ExtractionResult) (rows1 : list Row) (row : Row)
         (rows2 : list Row) (w : world) (t : list ReportRow) (e : exn),
    db w = Some t ->
    connect_fails (connects w) = false ->
    all_rows r = rows1 ++ row :: rows2 ->
    Forall wide rows1 ->
    Forall bindable (map (report_row r) rows1) ->
    wide row ->
    bind_parameters (report_row r row) = Some e ->
    exists w',
      write_sql connect_fails commit_fails accepts r w = (Raise e, w') /\
      is_sqlite3_Error e = false /\
      executed (trace w')
      = executed (trace w) ++ map (report_row r) rows1 ++ [report_row r row] /\
      db w' = Some t.
Proof.
  intros r rows1 row rows2 w t e Hdb Hc Hrows H1 Hb Hrow He.
  destruct (for_each_until_unbindable accepts r rows1 row rows2
              (set_txn None (set_connects (S (connects w)) w)) t e Hdb H1 Hb Hrow He)
    as (w1 & E & X).
  rewrite <- Hrows in E.
  destruct (write_sql_raise connect_fails commit_fails accepts r w e w1 Hc E)
    as (Ew & Hne & D & _ & T).
  exists (rollback w1). split; [exact Ew|]. split; [exact Hne|].
  split; [rewrite T; exact X|]. now rewrite D.
Qed.

End FurtherWriteClaims.

Module FurtherWriteWitnesses.
Import Examples MoreExamples.

Lemma write_sql_connection_failure_witness :
  write_sql first_only never any_row result_short w0
  = (Return tt,
     add_event (Logged " write_sql() config error: %s" sqlite3_Error)
       (set_connects (S (connects w0)) w0)).
Proof.
  apply (write_sql_connection_failure first_only never any_row result_short w0).
  reflexivity.
Defined.


Lemma write_sql_short_row_rolls_back_witness :
  exists w',
    write_sql never never any_row result_short w_old = (Raise IndexError, w') /\
    executed (trace w') = executed (trace w_old)
      ++ map (report_row result_short) [maths] /\
    db w' = db w_old.
Proof.
  apply (write_sql_short_row_rolls_back never never any_row result_short
           [maths] art_short [english] w_old).
  - reflexivity.
  - reflexivity.
  - repeat constructor.
  - repeat constructor.
  - unfold wide. vm_compute. lia.
Defined.


Lemma write_sql_unbindable_row_rolls_back_witness :
  exists w',
    write_sql never never any_row result_unencodable w_old
    = (Raise UnicodeEncodeError, w') /\
    is_sqlite3_Error UnicodeEncodeError = false /\
    executed (trace w')
    = executed (trace w_old)
      ++ map (report_row result_unencodable) [maths]
      ++ [report_row result_unencodable unencodable] /\
    db w' = Some [report_row result_wide english].
Proof.
  apply (write_sql_unbindable_row_rolls_back never never any_row result_unencodable
           [maths] unencodable [english] w_old [report_row result_wide english]
           UnicodeEncodeError).
  - reflexivity.
  - reflexivity.
  - reflexivity.
  - repeat constructor.
  - repeat constructor.
  - unfold wide. vm_compute. lia.
  - vm_compute. reflexivity.
Defined.

(** The year [2 ^ 63] is refused at binding with [OverflowError]. *)
Example write_sql_far_year :
  fst (run (write_sql never never any_row result_far_year) w_old) = Raise OverflowError /\
  db (snd (run (write_sql never never any_row result_far_year) w_old)) = db w_old.
Proof. split; vm_compute; reflexivity. Qed.

End FurtherWriteWitnesses.

(** ** The driver: what a run leaves in the table *)

Section FurtherDriver.

Variable decimal_value : char -> option Z.
Variable pymupdf_open : Path -> outcome Document.
Variable connect_fails : nat -> bool.
Variable script_fault_at : nat -> script_fault.
Variable commit_fails : nat -> bool.
Variable accepts : ReportRow -> bool.

Local Abbreviation data := (extract_data decimal_value pymupdf_open).
Local Abbreviation process :=
  (process_file decimal_value pymupdf_open connect_fails commit_fails accepts).
Local Abbreviation iterate :=
  (iterate_files decimal_value pymupdf_open connect_fails commit_fails accepts).
Local Abbreviation rows_of := (file_rows decimal_value pymupdf_open accepts).

(** The outcome of the extractions does not depend on the world. *)
Lemma metadata_of_page_outcome : forall p w w',
  fst (metadata_of_page decimal_value p w) = fst (metadata_of_page decimal_value p w').
Proof.
  intros p w w'. unfold metadata_of_page, bind, call, ret, raise.
  destruct (get_text p) as [text|e]; simpl; auto.
  destruct (Re.search nm_search text) as [[i g]|]; auto.
  destruct (Re.search (se_search decimal_value) text) as [[j g']|]; auto.
  destruct (group g 1); simpl; auto.
  destruct (group g 2); simpl; auto.
  destruct (map_int decimal_value g') as [[|z1 [|z2 [|z3 [|z4 zs]]]]|]; auto.
Qed.

Lemma extract_metadata_outcome : forall doc w w',
  fst (extract_metadata decimal_value doc w)
  = fst (extract_metadata decimal_value doc w').
Proof.
  induction doc as [|p doc IH]; intros w w'; [reflexivity|].
  cbn [extract_metadata]. unfold bind, try_except.
  pose proof (metadata_of_page_outcome p w w') as Ho.
  pose proof (metadata_of_page_world decimal_value p w) as Hw.
  pose proof (metadata_of_page_world decimal_value p w') as Hw'.
  destruct (metadata_of_page decimal_value p w) as [o w1].
  destruct (metadata_of_page decimal_value p w') as [o' w1'].
  simpl in Ho, Hw, Hw'. subst o' w1 w1'.
  destruct o as [[md|]|e]; simpl; auto.
Qed.

Lemma extract_data_outcome : forall f w w',
  fst (data f w) = fst (data f w').
Proof.
  intros f w w'. destruct (pymupdf_open f) as [doc|e] eqn:Ho.
  - destruct (extract_data_opened decimal_value pymupdf_open f doc w Ho)
      as (mdo & w1 & E1 & _ & H).
    destruct (extract_data_opened decimal_value pymupdf_open f doc w' Ho)
      as (mdo' & w1' & E1' & _ & H').
    pose proof (extract_metadata_outcome doc (add_event (Opened f) w)
                  (add_event (Opened f) w')) as Hm.
    rewrite E1, E1' in Hm. simpl in Hm. injection Hm as <-.
    destruct mdo as [md|].
    + destruct H as (ro & w2 & E2 & _ & E). destruct H' as (ro' & w2' & E2' & _ & E').
      destruct (extract_tabledata_spec doc w1) as (v & _ & S1).
      destruct (extract_tabledata_spec doc w1') as (v' & _ & S1').
      rewrite S1 in E2. rewrite S1' in E2'.
      injection E2 as <- _. injection E2' as <- _.
      now rewrite E, E'.
    + now rewrite H, H'.
  - now rewrite !(extract_data_unopened decimal_value pymupdf_open f e _ Ho).
Qed.

Lemma file_rows_of_result : forall f w r w',
  data f w = (Return (Some r), w') -> rows_of f = persisted_rows accepts r.
Proof.
  intros f w r w' H. unfold file_rows.
  rewrite (extract_data_outcome f blank w), H. reflexivity.
Qed.

Lemma file_rows_no_result : forall f w o w',
  data f w = (o, w') -> (forall r, o <> Return (Some r)) -> rows_of f = [].
Proof.
  intros f w o w' H Hn. unfold file_rows.
  rewrite (extract_data_outcome f blank w), H. simpl.
  destruct o as [[r|]|e]; auto. now contradiction (Hn r).
Qed.



(** Any run of the file loop only appends to the table. *)
Lemma process_file_appends : forall f w,
  exists o w' X, process f w = (o, w') /\
    db w' = option_map (fun t => t ++ X) (db w).
Proof.
  intros f w.
  destruct (extract_data_frame decimal_value pymupdf_open f w)
    as (o & w1 & E & _ & _ & D & _).
  unfold process_file, bind. rewrite E. destruct o as [[r|]|e].
  - destruct (write_sql_appends connect_fails commit_fails accepts r w1)
      as (o2 & w2 & X & E2 & _ & D2 & _).
    exists o2, w2, X. split; [exact E2|]. now rewrite D2, D.
  - exists (Return tt), w1, []. split; [reflexivity|].
    now rewrite D, option_map_app_nil.
  - exists (Raise e), w1, []. split; [reflexivity|].
    now rewrite D, option_map_app_nil.
Qed.

Lemma iterate_files_appends : forall files w,
  exists w' X, iterate files w = (Return tt, w') /\
    db w' = option_map (fun t => t ++ X) (db w).
Proof.
  induction files as [|f files IH]; intros w.
  - exists w, []. split; [reflexivity|]. now rewrite option_map_app_nil.
  - rewrite iterate_files_cons.
    destruct (process_file_appends f w) as (o & w1 & X1 & E & D). rewrite E.
    assert (Hstep : forall w2, db w2 = db w1 ->
              exists w' X, iterate files w2 = (Return tt, w') /\
                db w' = option_map (fun t => t ++ X) (db w)).
    { intros w2 D2. destruct (IH w2) as (w' & X2 & E' & D').
      exists w', (X1 ++ X2). split; [exact E'|]. rewrite D', D2, D.
      destruct (db w) as [t|]; simpl; auto. now rewrite <- app_assoc. }
    destruct o as [[]|e]; apply Hstep; reflexivity.
Qed.

End FurtherDriver.

Section FurtherDriverClaims.

Variable decimal_value : char -> option Z.
Variable pymupdf_open : Path -> outcome Document.
Variable connect_fails : nat -> bool.
Variable script_fault_at : nat -> script_fault.
Variable commit_fails : nat -> bool.
Variable accepts : ReportRow -> bool.

(** X11.  A file that cannot be opened is reported by the file loop as a
    [TypeError], whatever the error of opening it was: the handler of
    [extract_data] calls [logging.exception] without a message, which
    raises, so nothing is logged by [extract_data] itself and the store is
    not touched; the loop goes on with the rest of the list. *)
Theorem iterate_files_unopenable_file :
  forall (f : Path) (e : exn) (rest : list Path) (w : world),
    pymupdf_open f = Raise e ->
    extract_data decimal_value pymupdf_open f w
    = (Raise TypeError, add_event (Opened f) w) /\
    iterate_files decimal_value pymupdf_open connect_fails commit_fails
      accepts (f :: rest) w
    = iterate_files decimal_value pymupdf_open connect_fails commit_fails accepts rest
        (add_event (Logged " iterate_files() error: %s" TypeError)
           (add_event (Opened f) w)).
Proof.
  intros f e rest w Ho.
  pose proof (extract_data_unopened decimal_value pymupdf_open f e w Ho) as E.
  split; [exact E|].
  rewrite iterate_files_cons. unfold process_file, bind. now rewrite E.
Qed.

(** X12.  [extract_data] opens its file and no other, executes no INSERT,
    opens no connection and leaves the table as it was; it raises only when
    the file cannot be opened, and then the exception is [TypeError]. *)
Theorem extract_data_reads_only :
  forall (f : Path) (w : world),
    exists o w',
      extract_data decimal_value pymupdf_open f w = (o, w') /\
      db w' = db w /\ connects w' = connects w /\
      executed (trace w') = executed (trace w) /\
      opened (trace w') = opened (trace w) ++ [f] /\
      (forall e, o = Raise e ->
         e = TypeError /\ exists e0, pymupdf_open f = Raise e0).
Proof.
  intros f w. destruct (pymupdf_open f) as [doc|e0] eqn:Ho.
  - destruct (extract_data_opened decimal_value pymupdf_open f doc w Ho)
      as (mdo & w1 & _ & (D1 & C1 & O1 & X1) & H).
    rewrite quiet_opened in O1.
    assert (X0 : executed (trace (add_event (Opened f) w)) = executed (trace w)).
    { simpl. rewrite executed_app. simpl. now rewrite app_nil_r. }
    destruct mdo as [md|].
    + destruct H as (ro & w2 & _ & (D2 & C2 & O2 & X2) & E).
      eexists. exists w2. split; [exact E|]. simpl in *.
      repeat split; try congruence; discriminate.
    + eexists. exists w1. split; [exact H|]. simpl in *.
      repeat split; try congruence; discriminate.
  - eexists. eexists.
    split; [apply (extract_data_unopened decimal_value pymupdf_open f e0 w Ho)|].
    rewrite quiet_opened. simpl. rewrite executed_app. simpl. rewrite app_nil_r.
    repeat split; try congruence. eauto.
Qed.

(** X13.  When the file opens and no page matches both patterns,
    [extract_data] returns no result without looking at any table: its only
    effects are the opening of the file and one log record per page whose
    text cannot be read. *)
Theorem extract_data_without_metadata_skips_tables :
  forall (f : Path) (doc : Document) (w : world),
    pymupdf_open f = Return doc ->
    (forall q, In q doc -> ~ page_matches decimal_value q) ->
    extract_data decimal_value pymupdf_open f w
    = (Return None, add_events (text_errors doc) (add_event (Opened f) w)).
Proof.
  intros f doc w Ho Hdoc.
  destruct (extract_metadata_passes_over decimal_value doc []
              (add_event (Opened f) w) Hdoc) as [_ E].
  unfold extract_data, try_except, bind, emit, call. now rewrite Ho, E.
Qed.

(** X14.  The file loop only appends: whatever the files, the connections
    and the store do, the loop returns normally, the rows that were in the
    table stay first and unchanged, and a missing table stays missing. *)
Theorem iterate_files_append_only :
  forall (files : list Path) (w : world),
    exists w' X,
      iterate_files decimal_value pymupdf_open connect_fails commit_fails accepts files w
      = (Return tt, w') /\
      db w' = option_map (fun t => t ++ X) (db w).
Proof. apply iterate_files_appends. Qed.

(** X15.  When the store has no table and schema initialisation fails, the
    whole run persists nothing: [main] returns normally and the table is
    still missing, whatever the later connections do. *)
Theorem main_without_schema_persists_nothing :
  forall (file_list : list Path) (w : world),
    db w = None ->
    connect_fails (connects w) = true ->
    exists w',
      main decimal_value pymupdf_open connect_fails script_fault_at commit_fails
        accepts file_list w
      = (Return tt, w') /\
      db w' = None.
Proof.
  intros file_list w Hdb Hc.
  pose proof (setup_sql_no_connection connect_fails script_fault_at commit_fails w Hc)
    as Es.
  destruct (iterate_files_appends decimal_value pymupdf_open connect_fails commit_fails accepts
              file_list
              (add_event (Logged " setup_sql() error: %s" sqlite3_Error)
                 (set_connects (S (connects w)) w))) as (w' & X & E & D).
  exists w'. split.
  - unfold main, bind. now rewrite Es.
  - rewrite D. simpl. now rewrite Hdb.
Qed.


(** X19.  When the connection of [setup_sql] opens but the schema script
    fails, the error is logged once and [setup_sql] returns normally; the
    table is left as it was when the DROP fails and is missing when the
    CREATE fails after the DROP; [main] then runs the file loop over the
    whole list all the same. *)
Theorem main_proceeds_after_script_failure :
  forall (file_list : list Path) (w : world),
    connect_fails (connects w) = false ->
    script_fault_at (connects w) <> ScriptOk ->
    exists w1 w',
      setup_sql connect_fails script_fault_at commit_fails w = (Return tt, w1) /\
      trace w1 = trace w ++ [Logged " setup_sql() error: %s" sqlite3_Error] /\
      db w1 = match script_fault_at (connects w) with
              | CreateFails => None
              | _ => db w
              end /\
      main decimal_value pymupdf_open connect_fails script_fault_at commit_fails
        accepts file_list w
      = (Return tt, w') /\
      opened (trace w') = opened (trace w) ++ file_list.
Proof.
  intros file_list w Hc Hs.
  destruct (setup_sql_script_fails connect_fails script_fault_at commit_fails w Hc Hs)
    as (w1 & Es & T1 & D1 & _).
  destruct (iterate_files_total decimal_value pymupdf_open connect_fails commit_fails
              accepts file_list w1) as (w' & Ei & Oi).
  exists w1, w'. split; [exact Es|]. split; [exact T1|]. split; [exact D1|]. split.
  - unfold main, bind. now rewrite Es.
  - rewrite Oi, T1, opened_app. simpl. now rewrite app_nil_r.
Qed.

(** The rows a file contributes are those of its extraction result:
    the rows of the result that the store accepts when every row has at
    least six cells and every value can be bound, and none otherwise or
    when there is no result. *)
Theorem file_rows_characterised :
  forall (f : Path) (w w' : world) (o : outcome (option ExtractionResult)),
    extract_data decimal_value pymupdf_open f w = (o, w') ->
    file_rows decimal_value pymupdf_open accepts f
    = match o with
      | Return (Some r) =>
          if forallb wideb (all_rows r)
             && forallb bindableb (map (report_row r) (all_rows r))
          then filter accepts (map (report_row r) (all_rows r))
          else []
      | _ => []
      end.
Proof.
  intros f w w' o H. destruct o as [[r|]|e].
  - apply (file_rows_of_result decimal_value pymupdf_open accepts f w r w' H).
  - apply (file_rows_no_result decimal_value pymupdf_open accepts f w _ w' H).
    discriminate.
  - apply (file_rows_no_result decimal_value pymupdf_open accepts f w _ w' H).
    discriminate.
Qed.

End FurtherDriverClaims.

Module FurtherDriverWitnesses.
Import Examples MoreExamples.

Local Open Scope string_scope.
Local Open Scope list_scope.

Lemma iterate_files_unopenable_file_witness :
  extract_data ascii_decimal files "missing.pdf" w_old
  = (Raise TypeError, add_event (Opened "missing.pdf") w_old) /\
  iterate_files ascii_decimal files never never any_row ("missing.pdf" ::
    ["jane.pdf"]) w_old
  = iterate_files ascii_decimal files never never any_row ["jane.pdf"]
      (add_event (Logged " iterate_files() error: %s" TypeError)
         (add_event (Opened "missing.pdf") w_old)).
Proof.
  apply (iterate_files_unopenable_file ascii_decimal files never never any_row
           "missing.pdf" RuntimeError ["jane.pdf"] w_old).
  reflexivity.
Defined.

Lemma extract_data_without_metadata_skips_tables_witness :
  extract_data ascii_decimal files_unnamed "unnamed.pdf" w0
  = (Return None,
     add_events (text_errors [page_cover; page_broken; page_bad_table])
       (add_event (Opened "unnamed.pdf") w0)).
Proof.
  apply (extract_data_without_metadata_skips_tables ascii_decimal files_unnamed
           "unnamed.pdf" [page_cover; page_broken; page_bad_table] w0).
  - reflexivity.
  - intros q [<-|[<-|[<-|[]]]].
    + eapply MetadataWitnesses.no_identity_no_match; [reflexivity|vm_compute; reflexivity].
    + eapply MetadataWitnesses.unreadable_no_match; reflexivity.
    + eapply MetadataWitnesses.no_identity_no_match; [reflexivity|vm_compute; reflexivity].
Defined.

Lemma main_without_schema_persists_nothing_witness :
  exists w',
    main ascii_decimal files first_only no_fault never any_row
      ["jane.pdf"; "short.pdf"] no_table
    = (Return tt, w') /\
    db w' = None.
Proof.
  apply (main_without_schema_persists_nothing ascii_decimal files first_only no_fault
           never any_row
           ["jane.pdf"; "short.pdf"] no_table); reflexivity.
Defined.


Lemma file_rows_characterised_witness :
  file_rows ascii_decimal files not_english "jane.pdf"
  = match fst (extract_data ascii_decimal files "jane.pdf" w_old) with
    | Return (Some r) =>
        if forallb wideb (all_rows r)
           && forallb bindableb (map (report_row r) (all_rows r))
        then filter not_english (map (report_row r) (all_rows r))
        else []
    | _ => []
    end.
Proof.
  apply (file_rows_characterised ascii_decimal files not_english "jane.pdf" w_old
           (snd (extract_data ascii_decimal files "jane.pdf" w_old))
           (fst (extract_data ascii_decimal files "jane.pdf" w_old))).
  apply surjective_pairing.
Defined.

(** The table after a run over the three documents: the one accepted row of
    the last document. *)
Example main_rebuild_example :
  flat_map (file_rows ascii_decimal files not_english)
    ["missing.pdf"; "short.pdf"; "jane.pdf"]
  = [report_row result_wide maths].
Proof. vm_compute. reflexivity. Qed.

Lemma main_proceeds_after_script_failure_witness :
  exists w1 w',
    setup_sql never create_fails_first never w0 = (Return tt, w1) /\
    trace w1 = trace w0 ++ [Logged " setup_sql() error: %s" sqlite3_Error] /\
    db w1 = match create_fails_first (connects w0) with
            | CreateFails => None
            | _ => db w0
            end /\
    main ascii_decimal files never create_fails_first never any_row
      ["jane.pdf"; "missing.pdf"] w0
    = (Return tt, w') /\
    opened (trace w') = opened (trace w0) ++ ["jane.pdf"; "missing.pdf"].
Proof.
  apply (main_proceeds_after_script_failure ascii_decimal files never
           create_fails_first never any_row ["jane.pdf"; "missing.pdf"] w0).
  - reflexivity.
  - vm_compute. discriminate.
Defined.

(** A script that fails at its DROP leaves the old row in the table, and
    the rows of the run are appended after it. *)
Example main_after_drop_failure :
  db (snd (run (main ascii_decimal files never drop_fails_first never any_row
                  ["jane.pdf"])
             {| db := Some [report_row result_wide english]; txn := None;
                connects := 0; trace := [] |}))
  = Some [report_row result_wide english;
          report_row result_wide maths; report_row result_wide english].
Proof. vm_compute. reflexivity. Qed.

End FurtherDriverWitnesses.

Section FurtherConnections.

Variable decimal_value : char -> option Z.
Variable pymupdf_open : Path -> outcome Document.
Variable connect_fails : nat -> bool.
Variable script_fault_at : nat -> script_fault.
Variable commit_fails : nat -> bool.
Variable accepts : ReportRow -> bool.

(** X17.  The processing of a file opens a connection to the store exactly
    when extraction produced a result: a file that cannot be opened, or
    whose document has no metadata or no marker table, never reaches the
    store. *)
Theorem process_file_connects_only_for_a_result :
  forall (f : Path) (w w1 : world) (o1 : outcome (option ExtractionResult)),
    extract_data decimal_value pymupdf_open f w = (o1, w1) ->
    exists o w',
      process_file decimal_value pymupdf_open connect_fails commit_fails
        accepts f w = (o, w') /\
      connects w' = match o1 with
                    | Return (Some _) => S (connects w)
                    | _ => connects w
                    end /\
      match o1 with
      | Return (Some _) => True
      | _ => db w' = db w /\ executed (trace w') = executed (trace w)
      end.
Proof.
  intros f w w1 o1 E.
  destruct (extract_data_frame decimal_value pymupdf_open f w)
    as (o & w2 & E' & _ & _ & D & C).
  rewrite E in E'. injection E' as <- <-.
  assert (X : executed (trace w1) = executed (trace w)).
  { destruct (pymupdf_open f) as [doc|e0] eqn:Ho.
    - destruct (extract_data_opened decimal_value pymupdf_open f doc w Ho)
        as (mdo & v1 & _ & (_ & _ & _ & X1) & H).
      assert (X0 : executed (trace (add_event (Opened f) w)) = executed (trace w)).
      { simpl. rewrite executed_app. simpl. now rewrite app_nil_r. }
      destruct mdo as [md|].
      + destruct H as (ro & v2 & _ & (_ & _ & _ & X2) & H). rewrite E in H.
        injection H as _ <-. congruence.
      + rewrite E in H. injection H as _ <-. congruence.
    - rewrite (extract_data_unopened decimal_value pymupdf_open f e0 w Ho) in E.
      injection E as _ <-. simpl. rewrite executed_app. simpl. now rewrite app_nil_r. }
  unfold process_file, bind. rewrite E. destruct o1 as [[r|]|e].
  - destruct (write_sql_appends connect_fails commit_fails accepts r w1)
      as (o2 & w2 & Y & E2 & _ & _ & _ & C2 & _).
    exists o2, w2. split; [exact E2|]. split; [congruence|exact I].
  - exists (Return tt), w1. repeat split; auto.
  - exists (Raise e), w1. repeat split; auto.
Qed.

End FurtherConnections.

Module FurtherConnectionsWitnesses.
Import Examples MoreExamples.

Local Open Scope string_scope.
Local Open Scope list_scope.

Lemma process_file_connects_only_for_a_result_witness :
  exists o w',
    process_file ascii_decimal files_unnamed never never any_row "unnamed.pdf" w_old
    = (o, w') /\
    connects w' = connects w_old /\
    db w' = db w_old /\ executed (trace w') = executed (trace w_old).
Proof.
  destruct (process_file_connects_only_for_a_result ascii_decimal files_unnamed
              never never any_row "unnamed.pdf" w_old
              (add_events (text_errors [page_cover; page_broken; page_bad_table])
                 (add_event (Opened "unnamed.pdf") w_old))
              (Return None)) as (o & w' & E & C & D & X).
  - vm_compute. reflexivity.
  - exists o, w'. auto.
Defined.

End FurtherConnectionsWitnesses.
